(** * COTSense: the result table, the CSV export and the search page

    A shallow embedding of the client-side logic of the COTSense front end:

    - [client/src/components/component-table.tsx]: sort state, the sort
      comparator, the sorted view and the row toggle;
    - the export button ([exportToCSV]);
    - [client/src/pages/search-results.tsx]: query validation, the search
      action, the explanation cache and its asynchronous population;
    - [client/src/lib/api.ts]: the two requests the page issues, the
      addresses, the handling of a response and the connection test;
    - the search bar and the connection debugger, which call into these.

    JavaScript strings are modelled as Rocq strings, one character per
    UTF-16 code unit, for code units below 256.  JavaScript numbers are the
    finite doubles, modelled by their exact rational value in [Q].  React
    state is passed explicitly; an [await] splits a handler into the part
    that runs before the request is issued and the part that runs when the
    request settles. *)

From Stdlib Require Import ZArith QArith Qabs Qround Lia Lqa.
From Stdlib Require Import Ascii String DecimalString DecimalN List.
From Stdlib Require Import Sorting.Sorted Sorting.Permutation.
From stdpp Require Import base gmap sets list strings.

Local Open Scope Z_scope.

(** ** The host: built-ins whose result depends on the engine *)

(** [localeCompare] is [String.prototype.localeCompare] in the default
    locale of the browser; [numberToString] is [Number::toString], used by
    [String(v)] and by [toFixed] outside the fixed-notation range. *)
Class Host := {
  localeCompare : string -> string -> Z;
  numberToString : Q -> string
}.

(** What the development relies on: the collation is a total preorder
    (consistent comparator), and the text of a number is never ranked at or
    before the empty string. *)
Class HostLaws (H : Host) : Prop := {
  localeCompare_refl : forall s, localeCompare s s = 0;
  localeCompare_flip : forall s t, Z.sgn (localeCompare t s) = - Z.sgn (localeCompare s t);
  localeCompare_trans : forall s t u,
    localeCompare s t <= 0 -> localeCompare t u <= 0 -> localeCompare s u <= 0;
  numberToString_after_empty : forall x, 0 < localeCompare (numberToString x) ""
}.

Module JS.

(** *** Truthiness, [||] and [??] *)

Definition truthyStr (s : string) : bool := negb (String.eqb s "").

Definition truthyOptStr (o : option string) : bool :=
  match o with Some s => truthyStr s | None => false end.

Definition truthyNum (x : Q) : bool := negb (Qeq_bool x 0).

Definition truthyOptNum (o : option Q) : bool :=
  match o with Some x => truthyNum x | None => false end.

(** [a || b] on optional strings and optional numbers. *)
Definition orStr (a b : option string) : option string :=
  if truthyOptStr a then a else b.

Definition orNum (a b : option Q) : option Q :=
  if truthyOptNum a then a else b.

(** A property as it is read off an object: [undefined] (also when the
    object has no such key), [null], or a value. *)
Inductive Field (A : Type) := Undefined | Null | Value (a : A).
Arguments Undefined {A}.
Arguments Null {A}.
Arguments Value {A} a.

(** The value of a property, for the operators that do not tell [null]
    from [undefined]: [||], [??], [?.] and the comparison with both. *)
Definition known {A} (f : Field A) : option A :=
  match f with Value a => Some a | Undefined | Null => None end.

(** [a || b] on properties that hold strings: [a] unless it is
    [undefined], [null] or the empty string. *)
Definition orField (a b : Field string) : Field string :=
  if truthyOptStr (known a) then a else b.

(** A property interpolated in a template literal. *)
Definition interp (f : Field string) : string :=
  match f with Undefined => "undefined" | Null => "null" | Value s => s end.

(** *** Strings *)

(** [\s] and the characters [trim] strips, among code units below 256:
    TAB, LF, VT, FF, CR, SPACE and NBSP. *)
Definition isSpace (c : ascii) : bool :=
  let n := nat_of_ascii c in
  (Nat.eqb n 9 || Nat.eqb n 10 || Nat.eqb n 11 || Nat.eqb n 12 ||
   Nat.eqb n 13 || Nat.eqb n 32 || Nat.eqb n 160)%bool.

Fixpoint trimStart (s : string) : string :=
  match s with
  | String c s' => if isSpace c then trimStart s' else s
  | EmptyString => EmptyString
  end.

Fixpoint trimEnd (s : string) : string :=
  match s with
  | String c s' =>
      match trimEnd s' with
      | EmptyString => if isSpace c then EmptyString else String c EmptyString
      | t => String c t
      end
  | EmptyString => EmptyString
  end.

Definition trim (s : string) : string := trimEnd (trimStart s).

(** Upper-case letters below 256 are A-Z, U+00C0-U+00D6 and U+00D8-U+00DE;
    each maps to the code unit 32 above it. *)
Definition lowerChar (c : ascii) : ascii :=
  let n := nat_of_ascii c in
  if ((Nat.leb 65 n && Nat.leb n 90) || (Nat.leb 192 n && Nat.leb n 214) ||
      (Nat.leb 216 n && Nat.leb n 222))%bool
  then ascii_of_nat (n + 32) else c.

Fixpoint toLowerCase (s : string) : string :=
  match s with
  | String c s' => String (lowerChar c) (toLowerCase s')
  | EmptyString => EmptyString
  end.

(** [s.split(/\s+/)]: the pieces between maximal runs of white space; a run
    at either end leaves an empty piece there.  [inRun] says that the
    previous character was white space. *)
Fixpoint splitSpaces (inRun : bool) (s : string) : list string :=
  match s with
  | EmptyString => [EmptyString]
  | String c s' =>
      if isSpace c then
        if inRun then splitSpaces true s' else EmptyString :: splitSpaces true s'
      else
        match splitSpaces false s' with
        | w :: ws => String c w :: ws
        | [] => [String c EmptyString]
        end
  end.

Definition split_ws (s : string) : list string := splitSpaces false s.

(** [xs.join(sep)]. *)
Fixpoint join (sep : string) (xs : list string) : string :=
  match xs with
  | [] => ""
  | [x] => x
  | x :: rest => x +:+ sep +:+ join sep rest
  end.

Definition includes (xs : list string) (w : string) : bool :=
  existsb (String.eqb w) xs.

(** The text in front of the first line feed. *)
Fixpoint firstLine (s : string) : string :=
  match s with
  | EmptyString => EmptyString
  | String c s' =>
      if Ascii.eqb c "010"%char then EmptyString else String c (firstLine s')
  end.

Definition isDigit (c : ascii) : bool :=
  let n := nat_of_ascii c in (Nat.leb 48 n && Nat.leb n 57)%bool.

Fixpoint allDigits (s : string) : bool :=
  match s with
  | EmptyString => true
  | String c s' => (isDigit c && allDigits s')%bool
  end.

(** A numeral in fixed notation with [f] fraction digits: an optional minus
    sign, at least one digit, a point and exactly [f] digits. *)
Definition fixedNotation (f : nat) (s : string) : Prop :=
  exists sign int frac,
    s = sign +:+ int +:+ "." +:+ frac /\
    (sign = "" \/ sign = "-") /\
    int <> "" /\ allDigits int = true /\
    allDigits frac = true /\ String.length frac = f.

(** *** Numbers *)

Definition digitChar (d : Z) : ascii := ascii_of_nat (48 + Z.to_nat d).

(** The last [f] decimal digits of [k], most significant first. *)
Fixpoint fixedDigits (f : nat) (k : Z) : string :=
  match f with
  | O => ""
  | S f' => fixedDigits f' (k / 10) +:+ String (digitChar (k mod 10)) ""
  end.

(** The decimal digits of a natural number, ["0"] for zero. *)
Definition natDigits (n : Z) : string :=
  NilZero.string_of_uint (N.to_uint (Z.to_N n)).

(** The integer [n] for which [n / 10^f - x] is closest to zero, the larger
    one when there are two ([x] not negative). *)
Definition roundScaled (x : Q) (f : nat) : Z :=
  let p := Qnum x * 10 ^ Z.of_nat f in
  let d := Z.pos (Qden x) in
  (2 * p + d) / (2 * d).

(** [Number.prototype.toFixed]: below 10^21 in magnitude the sign, the
    integer digits and [f] fraction digits; [Number::toString] otherwise. *)
Definition toFixed `{Host} (x : Q) (f : nat) : string :=
  if Qle_bool (inject_Z (10 ^ 21)) (Qabs x) then numberToString x
  else
    let s := if Qle_bool 0 x then "" else "-" in
    let n := roundScaled (Qabs x) f in
    let scale := 10 ^ Z.of_nat f in
    s +:+ natDigits (n / scale) +:+
      match f with
      | O => ""
      | _ => "." +:+ fixedDigits f (n mod scale)
      end.

End JS.

(** ** [shared/schema.ts]: the component as the client receives it *)

(** [Component] has the camel-case columns of the table; the recommendation
    service answers with snake-case keys, which the client reads through
    [(c as any).part_number] and the like.  [Raw.Component] is the object
    as it arrives: every key but [id] may be missing, [null] or a value.
    The readings below it give the value of a key and are [None] for a key
    that is [null] or [undefined]; they serve every use that does not tell
    the two apart, which is every use but a template literal. *)
Module Schema.

Module Raw.

Record Component := {
  id : string;
  partNumber : JS.Field string;
  part_number : JS.Field string;
  manufacturer : JS.Field string;
  category : JS.Field string;
  description : JS.Field string;
  specMatch : JS.Field Q;
  spec_match : JS.Field Q;
  totalScore : JS.Field Q;
  total_score : JS.Field Q;
  price : JS.Field Q;
  stock : JS.Field string;
  specifications : JS.Field string
}.

End Raw.

Definition Component : Type := Raw.Component.

Definition id (c : Component) : string := Raw.id c.
Definition partNumber (c : Component) : option string := JS.known (Raw.partNumber c).
Definition part_number (c : Component) : option string := JS.known (Raw.part_number c).
Definition manufacturer (c : Component) : option string := JS.known (Raw.manufacturer c).
Definition category (c : Component) : option string := JS.known (Raw.category c).
Definition description (c : Component) : option string := JS.known (Raw.description c).
Definition specMatch (c : Component) : option Q := JS.known (Raw.specMatch c).
Definition spec_match (c : Component) : option Q := JS.known (Raw.spec_match c).
Definition totalScore (c : Component) : option Q := JS.known (Raw.totalScore c).
Definition total_score (c : Component) : option Q := JS.known (Raw.total_score c).
Definition price (c : Component) : option Q := JS.known (Raw.price c).
Definition stock (c : Component) : option string := JS.known (Raw.stock c).
Definition specifications (c : Component) : option string :=
  JS.known (Raw.specifications c).

Record RecommendResponse := {
  components : option (list Component);
  rr_query : string;
  total : Z
}.

Record ExplainResponse := {
  explanation : string;
  component_id : string
}.

End Schema.

Abbreviation Component := Schema.Component.

(** ** [component-table.tsx] *)

Module ComponentTable.

Inductive SortField := partNumber | manufacturer | specMatch | totalScore | price.
Inductive SortDirection := asc | desc.

Record TableState := {
  sortField : SortField;
  sortDirection : SortDirection;
  expandedRows : gset string
}.

(** The three [useState] defaults. *)
Definition initial : TableState :=
  {| sortField := totalScore; sortDirection := desc; expandedRows := ∅ |}.

Definition SortField_eqb (f g : SortField) : bool :=
  match f, g with
  | partNumber, partNumber | manufacturer, manufacturer
  | specMatch, specMatch | totalScore, totalScore | price, price => true
  | _, _ => false
  end.

Definition handleSort (field : SortField) (t : TableState) : TableState :=
  if SortField_eqb (sortField t) field then
    {| sortField := sortField t;
       sortDirection := match sortDirection t with asc => desc | desc => asc end;
       expandedRows := expandedRows t |}
  else
    {| sortField := field; sortDirection := desc; expandedRows := expandedRows t |}.

(** A property value of a component: a number or a string. *)
Inductive Value := VNum (x : Q) | VStr (s : string).

(** [a[sortField]]. *)
Definition prop (a : Component) (f : SortField) : option Value :=
  match f with
  | partNumber => VStr <$> Schema.partNumber a
  | manufacturer => VStr <$> Schema.manufacturer a
  | specMatch => VNum <$> Schema.specMatch a
  | totalScore => VNum <$> Schema.totalScore a
  | price => VNum <$> Schema.price a
  end.

(** [String(v)]. *)
Definition toStr `{Host} (v : Value) : string :=
  match v with VNum x => numberToString x | VStr s => s end.

(** The comparator handed to [sort]. *)
Definition compareFn `{Host} (sortField : SortField) (sortDirection : SortDirection)
    (a b : Component) : Q :=
  let aVal := default (VStr "") (prop a sortField) in
  let bVal := default (VStr "") (prop b sortField) in
  let multiplier : Q := match sortDirection with asc => 1%Q | desc => (-1)%Q end in
  match aVal, bVal with
  | VNum x, VNum y => (x - y) * multiplier
  | _, _ => inject_Z (localeCompare (toStr aVal) (toStr bVal)) * multiplier
  end%Q.

(** [a] may stand in front of [b] in the sorted view. *)
Definition inOrder `{Host} (f : SortField) (d : SortDirection) (a b : Component) : Prop :=
  (compareFn f d a b <= 0)%Q.

(** The test [sort] makes on a comparator result: positive puts the first
    argument behind the second. *)
Definition after (r : Q) : bool := negb (Qle_bool r 0).

(** [x] may stand in front of [y]. *)
Definition notAfter {A} (cmp : A -> A -> Q) (x y : A) : Prop := (cmp x y <= 0)%Q.

(** [Array.prototype.sort] is stable; with a consistent comparator its
    result is the one stable arrangement in comparator order.  It is modelled
    by straight insertion: an element goes behind those it compares greater
    than and in front of the first one it does not. *)
Fixpoint place {A} (cmp : A -> A -> Q) (x : A) (l : list A) : list A :=
  match l with
  | [] => [x]
  | y :: l' => if after (cmp x y) then y :: place cmp x l' else x :: l
  end.

Fixpoint sort {A} (cmp : A -> A -> Q) (l : list A) : list A :=
  match l with
  | [] => []
  | x :: l' => place cmp x (sort cmp l')
  end.

Definition sortedComponents `{Host} (components : list Component) (t : TableState)
    : list Component :=
  sort (compareFn (sortField t) (sortDirection t)) components.

(** [toggleRow]: the new table state and, when [onExplain] is called, the
    identifier it is called with.  [onExplain] tells whether the prop was
    passed; [explanations] is the prop of the current render. *)
Definition toggleRow (onExplain : bool) (explanations : gmap string string)
    (id : string) (t : TableState) : TableState * option string :=
  if decide (id ∈ expandedRows t) then
    ({| sortField := sortField t; sortDirection := sortDirection t;
        expandedRows := expandedRows t ∖ {[id]} |}, None)
  else
    ({| sortField := sortField t; sortDirection := sortDirection t;
        expandedRows := expandedRows t ∪ {[id]} |},
     if (onExplain && negb (JS.truthyOptStr (explanations !! id)))%bool
     then Some id else None).

End ComponentTable.

(** ** The export button *)

Module ExportButton.

Definition dquote : string := String "034"%char "".
Definition newline : string := String "010"%char "".

Definition headers : list string :=
  ["Part Number"; "Manufacturer"; "Category"; "Spec Match"; "Total Score"; "Price"; "Stock"].

(** [x?.toFixed(f) ?? ""]. *)
Definition fixedOrEmpty `{Host} (x : option Q) (f : nat) : string :=
  match x with Some v => JS.toFixed v f | None => "" end.

(** The cells of one component. *)
Definition row `{Host} (c : Component) : list string :=
  [ default "" (JS.orStr (JS.orStr (Schema.part_number c) (Schema.partNumber c)) (Some ""));
    default "" (JS.orStr (Schema.manufacturer c) (Some ""));
    default "" (JS.orStr (Schema.category c) (Some ""));
    fixedOrEmpty (JS.orNum (Schema.spec_match c) (Schema.specMatch c)) 1;
    fixedOrEmpty (JS.orNum (Schema.total_score c) (Schema.totalScore c)) 1;
    fixedOrEmpty (Schema.price c) 2;
    default "" (Schema.stock c) ].

Definition quoted (cell : string) : string := dquote +:+ cell +:+ dquote.

(** What a numeric cell holds: nothing for a missing value, else the value
    in fixed notation with [f] fraction digits. *)
Definition numberCell `{Host} (f : nat) (v : option Q) (cell : string) : Prop :=
  match v with
  | None => cell = ""
  | Some x =>
      cell = JS.toFixed x f /\
      ((Qabs x < inject_Z (10 ^ 21))%Q -> JS.fixedNotation f cell)
  end.

(** The line of one component. *)
Definition line `{Host} (c : Component) : string :=
  JS.join "," (map quoted (row c)).

(** [csvContent], the text handed to the [Blob]. *)
Definition exportToCSV `{Host} (components : list Component) : string :=
  JS.join newline
    (JS.join "," headers ::
     map (fun r => JS.join "," (map quoted r)) (map row components)).

End ExportButton.

(** ** Reading a CSV file back

    The reader against which the round trip of the export is stated: the
    fields of RFC 4180 (bare, or enclosed in double quotes with a doubled
    quote standing for one), records separated by a line feed.  A quote
    inside a bare field, text behind a closing quote and an unclosed quote
    are errors. *)
Module Csv.

Inductive Mode := FieldStart | Bare | Quoted | QuoteSeen.

Definition push (c : ascii) (rows : list (list string)) : list (list string) :=
  match rows with
  | (f :: r) :: rs => (String c f :: r) :: rs
  | [] :: rs => [String c ""] :: rs
  | [] => [[String c ""]]
  end.

Definition nextField (rows : list (list string)) : list (list string) :=
  match rows with
  | r :: rs => ("" :: r) :: rs
  | [] => [[""]]
  end.

Definition nextRecord (rows : list (list string)) : list (list string) :=
  [""] :: rows.

Definition isQuote (c : ascii) : bool := Ascii.eqb c "034"%char.
Definition isComma (c : ascii) : bool := Ascii.eqb c ","%char.
Definition isLF (c : ascii) : bool := Ascii.eqb c "010"%char.

(** The records of [s]; the first field of the first record is the one
    being read. *)
Fixpoint read (m : Mode) (s : string) : option (list (list string)) :=
  match s with
  | EmptyString =>
      match m with Quoted => None | _ => Some [[""]] end
  | String c s' =>
      match m with
      | Quoted =>
          if isQuote c then read QuoteSeen s' else push c <$> read Quoted s'
      | QuoteSeen =>
          if isQuote c then push c <$> read Quoted s'
          else if isComma c then nextField <$> read FieldStart s'
          else if isLF c then nextRecord <$> read FieldStart s'
          else None
      | FieldStart =>
          if isQuote c then read Quoted s'
          else if isComma c then nextField <$> read FieldStart s'
          else if isLF c then nextRecord <$> read FieldStart s'
          else push c <$> read Bare s'
      | Bare =>
          if isQuote c then None
          else if isComma c then nextField <$> read FieldStart s'
          else if isLF c then nextRecord <$> read FieldStart s'
          else push c <$> read Bare s'
      end
  end.

Definition parse (s : string) : option (list (list string)) := read FieldStart s.

(** What may follow a record in a file: nothing, or a line feed and the
    text of the records [rows]. *)
Definition follows (rest : string) (rows : list (list string)) : Prop :=
  (rest = "" /\ rows = []) \/
  (exists more, rest = String "010"%char more /\ read FieldStart more = Some rows).

(** A cell without a double quote. *)
Fixpoint plain (s : string) : bool :=
  match s with
  | EmptyString => true
  | String c s' => (negb (isQuote c) && plain s')%bool
  end.

(** A cell that can stand without quotes: not empty, and free of quotes,
    commas and line feeds. *)
Fixpoint bareChars (s : string) : bool :=
  match s with
  | EmptyString => true
  | String c s' => (negb (isQuote c) && negb (isComma c) && negb (isLF c) && bareChars s')%bool
  end.

Definition bare (s : string) : bool :=
  match s with EmptyString => false | _ => bareChars s end.

(** The characters of [cell] put in front of the field being read. *)
Fixpoint pushAll (cell : string) (rows : list (list string)) : list (list string) :=
  match cell with
  | EmptyString => rows
  | String c cell' => push c (pushAll cell' rows)
  end.

(** The records behind the header line. *)
Definition dataRows (s : string) : option (list (list string)) :=
  tail <$> parse s.

(** Reading a decimal numeral: an optional minus sign, digits, and an
    optional point followed by digits. *)
Definition digitVal (c : ascii) : option Z :=
  let n := nat_of_ascii c in
  if (Nat.leb 48 n && Nat.leb n 57)%bool then Some (Z.of_nat n - 48) else None.

Fixpoint digitsValue (acc : Z) (s : string) : option Z :=
  match s with
  | EmptyString => Some acc
  | String c s' =>
      match digitVal c with
      | Some d => digitsValue (10 * acc + d) s'
      | None => None
      end
  end.

Fixpoint splitPoint (s : string) : string * option string :=
  match s with
  | EmptyString => (EmptyString, None)
  | String c s' =>
      if Ascii.eqb c "."%char then (EmptyString, Some s')
      else let '(a, b) := splitPoint s' in (String c a, b)
  end.

Definition readUnsigned (s : string) : option Q :=
  let '(ip, fp) := splitPoint s in
  match ip, fp with
  | EmptyString, _ => None
  | _, Some EmptyString => None
  | _, _ =>
      let fp := default "" fp in
      n ← digitsValue 0 (ip +:+ fp);
      Some (Qmake n (Z.to_pos (10 ^ Z.of_nat (String.length fp))))
  end.

Definition readDecimal (s : string) : option Q :=
  match s with
  | String c s' =>
      if Ascii.eqb c "-"%char then Qopp <$> readUnsigned s' else readUnsigned s
  | EmptyString => None
  end.

End Csv.

(** ** [lib/api.ts]: the requests and how they settle *)

Module Api.

(** The body posted to [/api/recommend] or to [/api/explain]. *)
Inductive Request :=
| Recommend (query : string) (top_k : Z)
| Explain (component_id : string) (query : string).

(** What a [catch] clause receives: an [Error] with its message, or any
    other value. *)
Inductive Thrown := ErrorObject (message : string) | OtherValue.

(** How an awaited call ends.  [api.recommend] and [api.explain] return the
    decoded body and rethrow whatever [fetch] or [handleResponse] threw. *)
Inductive Settled (A : Type) := Fulfilled (a : A) | Rejected (e : Thrown).
Arguments Fulfilled {A} a.
Arguments Rejected {A} e.

(** The completion of a block of statements. *)
Inductive Completion (A : Type) := Normal (a : A) | Throw (e : Thrown).
Arguments Normal {A} a.
Arguments Throw {A} e.

Definition await {A} (r : Settled A) : Completion A :=
  match r with Fulfilled a => Normal a | Rejected e => Throw e end.

Definition andThen {A B} (c : Completion A) (k : A -> Completion B) : Completion B :=
  match c with Normal a => k a | Throw e => Throw e end.

(** [try { body } catch (err) { handler(err) } finally { fin }] for a
    handler and a [finally] block that only call state setters. *)
Definition tryCatchFinally {A} (body : Completion A) (handler : Thrown -> A)
    (fin : A -> A) : Completion A :=
  Normal (fin (match body with Normal a => a | Throw e => handler e end)).

End Api.

(** ** [pages/search-results.tsx] *)

Module SearchResults.

Import Api.

(** The five [useState] cells of the page.  [explanations] is a plain
    object used as a map from identifiers to texts; identifiers are taken
    not to be property names of [Object.prototype]. *)
Record State := {
  query : string;
  components : list Component;
  isLoading : bool;
  error : option string;
  explanations : gmap string string
}.

Definition setQuery (q : string) (st : State) : State :=
  {| query := q; components := components st; isLoading := isLoading st;
     error := error st; explanations := explanations st |}.

Definition setComponents (cs : list Component) (st : State) : State :=
  {| query := query st; components := cs; isLoading := isLoading st;
     error := error st; explanations := explanations st |}.

Definition setIsLoading (b : bool) (st : State) : State :=
  {| query := query st; components := components st; isLoading := b;
     error := error st; explanations := explanations st |}.

Definition setError (e : option string) (st : State) : State :=
  {| query := query st; components := components st; isLoading := isLoading st;
     error := e; explanations := explanations st |}.

(** [setExplanations(prev => ({...prev, [k]: v}))]. *)
Definition setExplanation (k v : string) (st : State) : State :=
  {| query := query st; components := components st; isLoading := isLoading st;
     error := error st; explanations := <[k := v]> (explanations st) |}.

Definition obviouslyBadTerms : list string :=
  ["react"; "javascript"; "html"; "css"; "python"; "java"; "php"; "node";
   "website"; "frontend"; "backend"; "database"; "server"; "api";
   "facebook"; "instagram"; "twitter"; "youtube"; "google"; "amazon"].

Definition isValidElectronicsQuery (query : string) : bool :=
  let trimmedQuery := JS.toLowerCase (JS.trim query) in
  if (Nat.ltb (String.length trimmedQuery) 1 || String.eqb trimmedQuery "." ||
      String.eqb trimmedQuery ".." || String.eqb trimmedQuery "...")%bool
  then false
  else
    let words := JS.split_ws trimmedQuery in
    let allWordsAreBad :=
      (Nat.ltb 0 (length words) && forallb (JS.includes obviouslyBadTerms) words)%bool in
    negb allWordsAreBad.

Definition blockedMessage (searchQuery : string) : string :=
  ExportButton.dquote +:+ searchQuery +:+ ExportButton.dquote +:+
  " appears to be a software/web development term. This is an electronic components search engine. Try searching for electronic parts, components, or hardware.".

Definition lowRelevanceMessage (searchQuery : string) : string :=
  "No relevant electronic components found for " +:+
  ExportButton.dquote +:+ searchQuery +:+ ExportButton.dquote +:+
  ". The search results have very low relevance scores. Try searching for more specific electronic components or part numbers.".

Definition searchFailedMessage : string := "Search failed. Please try again.".

(** [(c as any).spec_match || 0]. *)
Definition scoreOf (c : Component) : Q :=
  default 0%Q (JS.orNum (Schema.spec_match c) (Some 0%Q)).

Definition Qmax (x y : Q) : Q := if Qle_bool x y then y else x.

(** [components.length > 0 ? Math.max(...components.map(scoreOf)) : 0]. *)
Definition maxScore (components : list Component) : Q :=
  match map scoreOf components with
  | [] => 0%Q
  | x :: xs => fold_left Qmax xs x
  end.

Definition Qltb (x y : Q) : bool := negb (Qle_bool y x).

(** [searchComponents] up to its [await]: the new state and the request it
    sends, if it sends one. *)
Definition searchComponents_begin (searchQuery : string) (st : State)
    : State * option Request :=
  let st := setError None (setIsLoading true st) in
  if negb (isValidElectronicsQuery searchQuery) then
    (setIsLoading false (setComponents [] (setError (Some (blockedMessage searchQuery)) st)),
     None)
  else (st, Some (Recommend searchQuery 20)).

(** The [try] block behind the [await]. *)
Definition searchComponents_body (searchQuery : string)
    (response : Schema.RecommendResponse) (st : State) : State :=
  let components := default [] (Schema.components response) in
  let maxScore := maxScore components in
  if (Nat.ltb 0 (length components) && Qltb maxScore 50)%bool then
    setComponents [] (setError (Some (lowRelevanceMessage searchQuery)) st)
  else setComponents components st.

Definition searchComponents_catch (err : Thrown) (st : State) : State :=
  setComponents []
    (setError (Some (match err with
                     | ErrorObject message => message
                     | OtherValue => searchFailedMessage
                     end)) st).

(** [searchComponents] from the moment its request settles. *)
Definition searchComponents_resume (searchQuery : string)
    (r : Settled Schema.RecommendResponse) (st : State) : Completion State :=
  tryCatchFinally
    (andThen (await r) (fun response => Normal (searchComponents_body searchQuery response st)))
    (fun err => searchComponents_catch err st)
    (setIsLoading false).

(** The whole of [searchComponents] against a service that answers [net]. *)
Definition searchComponents (net : Request -> Settled Schema.RecommendResponse)
    (searchQuery : string) (st : State) : Completion State * list Request :=
  match searchComponents_begin searchQuery st with
  | (st', Some req) => (searchComponents_resume searchQuery (net req) st', [req])
  | (st', None) => (Normal st', [])
  end.

(** The effect on [query]. *)
Definition queryEffect (st : State) : State * option Request :=
  if JS.truthyStr (query st) then searchComponents_begin (query st) st
  else (setError None (setComponents [] st), None).

(** The closure of a [handleExplain] call suspended at its [await]. *)
Record Pending := {
  componentId : string;
  component : Component;
  askedQuery : string
}.

Definition componentNotAvailable : string := "Component information not available.".

(** [(component as any).part_number || component.partNumber]. *)
Definition partNumberOf (c : Component) : JS.Field string :=
  JS.orField (Schema.Raw.part_number c) (Schema.Raw.partNumber c).

(** [component.category?.toLowerCase() || 'component']. *)
Definition categoryOf (c : Component) : string :=
  default "component" (JS.orStr (JS.toLowerCase <$> Schema.category c) (Some "component")).

Definition sentence (c : Component) (query : string) : string :=
  "The " +:+ JS.interp (partNumberOf c) +:+ " from " +:+
  JS.interp (Schema.Raw.manufacturer c) +:+ " is recommended as a " +:+
  categoryOf c +:+ " component that matches your query '" +:+ query +:+ "'.".

Definition correctedExplanation (c : Component) (query : string) : string :=
  sentence c query.

Definition fallbackExplanation (c : Component) (query : string) : string :=
  sentence c query +:+
  " This component has a high compatibility score based on your search criteria.".

(** [handleExplain] up to its [await]. *)
Definition handleExplain_begin (componentId : string) (st : State)
    : State * option Pending :=
  if JS.truthyOptStr (explanations st !! componentId) then (st, None)
  else
    match find (fun c => String.eqb (Schema.id c) componentId) (components st) with
    | None => (setExplanation componentId componentNotAvailable st, None)
    | Some component =>
        (st, Some {| componentId := componentId; component := component;
                     askedQuery := query st |})
    end.

(** [handleExplain] from the moment its request settles.  The component
    was found before the request was sent, so the [catch] block takes its
    first branch. *)
Definition handleExplain_resume (p : Pending) (r : Settled Schema.ExplainResponse)
    (st : State) : Completion State :=
  match await r with
  | Normal response =>
      Normal (setExplanation (componentId p)
                (correctedExplanation (component p) (askedQuery p)) st)
  | Throw err =>
      Normal (setExplanation (componentId p)
                (fallbackExplanation (component p) (askedQuery p)) st)
  end.

(** Which branch of the page is rendered. *)
Inductive View := ErrorPanel | Spinner | Results | NoResults | Prompt.

Definition render (st : State) : View :=
  if JS.truthyOptStr (error st) then ErrorPanel
  else if isLoading st then Spinner
  else if Nat.ltb 0 (length (components st)) then Results
  else if JS.truthyStr (query st) then NoResults
  else Prompt.

End SearchResults.

(** ** The page as an event system

    The page state, the state of the mounted table, the handler calls
    suspended at an [await], and the requests sent so far.  Every handler
    runs against the state of the latest render. *)
Module App.

Import Api SearchResults ComponentTable.

Record Sys := {
  page : State;
  table : TableState;
  recommendCalls : list string;
  explainCalls : list Pending;
  sent : list Request
}.

Inductive Event :=
| SubmitSearch (newQuery : string)
| ClickRetry
| ClickHeader (field : SortField)
| ClickRow (id : string)
| RecommendSettles (n : nat) (r : Settled Schema.RecommendResponse)
| ExplainSettles (n : nat) (r : Settled Schema.ExplainResponse).

Definition withPage (st : State) (s : Sys) : Sys :=
  {| page := st; table := table s; recommendCalls := recommendCalls s;
     explainCalls := explainCalls s; sent := sent s |}.

Definition withTable (t : TableState) (s : Sys) : Sys :=
  {| page := page s; table := t; recommendCalls := recommendCalls s;
     explainCalls := explainCalls s; sent := sent s |}.

(** A [searchComponents] call reached its [await], or returned early. *)
Definition searchStarted (searchQuery : string) (r : State * option Request) (s : Sys) : Sys :=
  match r with
  | (st, Some req) =>
      {| page := st; table := table s;
         recommendCalls := recommendCalls s ++ [searchQuery];
         explainCalls := explainCalls s; sent := req :: sent s |}
  | (st, None) => withPage st s
  end.

(** A [handleExplain] call reached its [await], or returned early. *)
Definition explainStarted (r : State * option Pending) (s : Sys) : Sys :=
  match r with
  | (st, Some p) =>
      {| page := st; table := table s; recommendCalls := recommendCalls s;
         explainCalls := explainCalls s ++ [p];
         sent := Explain (componentId p) (askedQuery p) :: sent s |}
  | (st, None) => withPage st s
  end.

Definition tableMounted (st : State) : bool :=
  match render st with Results => true | _ => false end.

Definition displayed (id : string) (st : State) : bool :=
  existsb (fun c => String.eqb (Schema.id c) id) (components st).

(** The table keeps its state while it is rendered and starts from its
    defaults when it is rendered again. *)
Definition remount (s : Sys) : Sys :=
  if tableMounted (page s) then s else withTable initial s.

Definition handle (e : Event) (s : Sys) : Sys :=
  match e with
  | SubmitSearch newQuery =>
      if String.eqb newQuery (query (page s)) then s
      else
        let st := setQuery newQuery (page s) in
        searchStarted newQuery (queryEffect st) s
  | ClickRetry =>
      match render (page s) with
      | ErrorPanel =>
          searchStarted (query (page s))
            (searchComponents_begin (query (page s)) (page s)) s
      | _ => s
      end
  | ClickHeader field =>
      if tableMounted (page s) then withTable (handleSort field (table s)) s else s
  | ClickRow id =>
      if (tableMounted (page s) && displayed id (page s))%bool then
        match toggleRow true (explanations (page s)) id (table s) with
        | (t, Some componentId) =>
            withTable t (explainStarted (handleExplain_begin componentId (page s)) s)
        | (t, None) => withTable t s
        end
      else s
  | RecommendSettles n r =>
      match recommendCalls s !! n with
      | Some searchQuery =>
          let s' := {| page := page s; table := table s;
                       recommendCalls := delete n (recommendCalls s);
                       explainCalls := explainCalls s; sent := sent s |} in
          match searchComponents_resume searchQuery r (page s) with
          | Normal st => withPage st s'
          | Throw _ => s'
          end
      | None => s
      end
  | ExplainSettles n r =>
      match explainCalls s !! n with
      | Some p =>
          let s' := {| page := page s; table := table s;
                       recommendCalls := recommendCalls s;
                       explainCalls := delete n (explainCalls s); sent := sent s |} in
          match handleExplain_resume p r (page s) with
          | Normal st => withPage st s'
          | Throw _ => s'
          end
      | None => s
      end
  end.

Definition step (e : Event) (s : Sys) : Sys := remount (handle e s).

Fixpoint run (es : list Event) (s : Sys) : Sys :=
  match es with
  | [] => s
  | e :: es' => run es' (step e s)
  end.

(** The page as mounted at [/search?q=query]: the effect on [query] runs
    once. *)
Definition boot (query : string) : Sys :=
  let st := {| SearchResults.query := query; components := []; isLoading := false;
               error := None; explanations := ∅ |} in
  searchStarted query (queryEffect st)
    {| page := st; table := initial; recommendCalls := []; explainCalls := [];
       sent := [] |}.

Definition isExplainFor (id : string) (r : Request) : bool :=
  match r with
  | Explain component_id _ => String.eqb component_id id
  | Recommend _ _ => false
  end.

(** How many explanation requests were sent for [id]. *)
Definition explainRequests (id : string) (s : Sys) : nat :=
  length (filter (fun r => isExplainFor id r = true) (sent s)).

(** How many of them have not settled yet. *)
Definition outstanding (id : string) (s : Sys) : nat :=
  length (filter (fun p => componentId p = id) (explainCalls s)).

(** The events that neither click a row nor settle an explanation. *)
Definition aside (e : Event) : Prop :=
  match e with
  | ClickRow _ | ExplainSettles _ _ => False
  | _ => True
  end.

(** The states the page can be in. *)
Definition reachable (s : Sys) : Prop :=
  exists query events, s = run events (boot query).

(** The row of [id] shows an explanation. *)
Definition cached (id : string) (s : Sys) : bool :=
  JS.truthyOptStr (explanations (page s) !! id).

(** A click on the row of [id] opens it and asks for its explanation. *)
Definition asks (id : string) (s : Sys) : bool :=
  (tableMounted (page s) && displayed id (page s) &&
   negb (bool_decide (id ∈ expandedRows (table s))) && negb (cached id s))%bool.

(** A click on the row of [componentId p] in state [s] asks for an
    explanation, and [p] is the call it suspends: for the component listed
    under that identifier and for the query of that moment. *)
Definition requested (s : Sys) (p : Pending) : Prop :=
  asks (componentId p) s = true /\
  find (fun c => String.eqb (Schema.id c) (componentId p)) (components (page s))
    = Some (component p) /\
  askedQuery p = query (page s).

(** Along [events], from the page opened on [query0], the call [p] was
    suspended by a click on its row. *)
Definition issued (query0 : string) (events : list Event) (p : Pending) : Prop :=
  exists before after,
    events = before ++ ClickRow (componentId p) :: after /\
    requested (run before (boot query0)) p.

(** After [events] the text [v] under the key [k] is attributed to a
    request: a click on the row of [k] suspended a call for the component
    then listed under [k], the request of that call, for [k] and the query
    of that moment, was sent, and [v] is the text made from that component
    and that query. *)
Definition attributed (query0 : string) (events : list Event) (k v : string) : Prop :=
  exists p,
    issued query0 events p /\ componentId p = k /\
    In (Explain k (askedQuery p)) (sent (run events (boot query0))) /\
    (v = correctedExplanation (component p) (askedQuery p) \/
     v = fallbackExplanation (component p) (askedQuery p)).

Definition wellAttributed (query0 : string) (events : list Event) : Prop :=
  Forall (fun p => issued query0 events p /\
                   In (Explain (componentId p) (askedQuery p))
                      (sent (run events (boot query0))))
         (explainCalls (run events (boot query0))) /\
  (forall k v, explanations (page (run events (boot query0))) !! k = Some v ->
     attributed query0 events k v).


End App.

(** ** The contract of the sort as the specification words it

    Numeric fields compare numerically and a missing number counts as zero;
    the other fields compare as strings and a missing string counts as the
    empty string. *)
Module Spec.

Import ComponentTable.

Definition number (a : Component) (f : SortField) : option Q :=
  match f with
  | specMatch => Schema.specMatch a
  | totalScore => Schema.totalScore a
  | price => Schema.price a
  | _ => None
  end.

Definition text (a : Component) (f : SortField) : option string :=
  match f with
  | partNumber => Schema.partNumber a
  | manufacturer => Schema.manufacturer a
  | _ => None
  end.

Definition isNumeric (f : SortField) : bool :=
  match f with specMatch | totalScore | price => true | _ => false end.

Definition compareFn `{Host} (f : SortField) (d : SortDirection) (a b : Component) : Q :=
  let multiplier : Q := match d with asc => 1%Q | desc => (-1)%Q end in
  ((if isNumeric f then default 0 (number a f) - default 0 (number b f)
    else inject_Z (localeCompare (default "" (text a f)) (default "" (text b f))))
   * multiplier)%Q.

Definition sortedComponents `{Host} (components : list Component) (t : TableState)
    : list Component :=
  sort (compareFn (sortField t) (sortDirection t)) components.

End Spec.

(** ** A host to run the definitions on

    Ordinal collation (strings compared code unit by code unit) and a number
    printer that is exact on the integers below 10^21; other numbers are
    printed with six fraction digits. *)
Module Sample.

Definition ordinalCompare (s t : string) : Z :=
  match String.compare s t with Lt => -1 | Eq => 0 | Gt => 1 end.

Definition printNumber (x : Q) : string :=
  let n := Qfloor (Qabs x) in
  (if Qle_bool 0 x then "" else "-") +:+ JS.natDigits n +:+
  (if Qeq_bool (Qabs x) (inject_Z n) then ""
   else "." +:+ JS.fixedDigits 6 (Qfloor (Qabs x * 1000000) mod 1000000)).

Definition host : Host :=
  {| localeCompare := ordinalCompare; numberToString := printNumber |}.

(** A value when there is one, a missing key otherwise. *)
Definition given {A} (o : option A) : JS.Field A :=
  match o with Some a => JS.Value a | None => JS.Undefined end.


(** A row as the table columns have it. *)
Definition part (id partNumber manufacturer category : string)
    (specMatch totalScore price : option Q) : Component :=
  {| Schema.Raw.id := id; Schema.Raw.partNumber := JS.Value partNumber;
     Schema.Raw.part_number := JS.Undefined;
     Schema.Raw.manufacturer := JS.Value manufacturer;
     Schema.Raw.category := JS.Value category;
     Schema.Raw.description := JS.Undefined; Schema.Raw.specMatch := given specMatch;
     Schema.Raw.spec_match := JS.Undefined; Schema.Raw.totalScore := given totalScore;
     Schema.Raw.total_score := JS.Undefined; Schema.Raw.price := given price;
     Schema.Raw.stock := JS.Value "In Stock"; Schema.Raw.specifications := JS.Undefined |}.

(** A row as the recommendation service answers it. *)
Definition answered (id part_number manufacturer category : string)
    (spec_match total_score price : option Q) : Component :=
  {| Schema.Raw.id := id; Schema.Raw.partNumber := JS.Undefined;
     Schema.Raw.part_number := JS.Value part_number;
     Schema.Raw.manufacturer := JS.Value manufacturer;
     Schema.Raw.category := JS.Value category;
     Schema.Raw.description := JS.Undefined; Schema.Raw.specMatch := JS.Undefined;
     Schema.Raw.spec_match := given spec_match; Schema.Raw.totalScore := JS.Undefined;
     Schema.Raw.total_score := given total_score; Schema.Raw.price := given price;
     Schema.Raw.stock := JS.Value "In Stock"; Schema.Raw.specifications := JS.Undefined |}.

(** A diode that matches nothing of the query: both scores are zero, and
    so is the price on record.  First as the service answers it, then as
    the table columns have it. *)
Definition zeroScored : Component :=
  answered "9" "BAT54" "Nexperia" "Diode" (Some 0%Q) (Some 0%Q) (Some 0%Q).

Definition zeroListed : Component :=
  part "9" "BAT54" "Nexperia" "Diode" (Some 0%Q) (Some 0%Q) (Some 0%Q).


Definition lm7805 : Component :=
  part "1" "LM7805" "Texas Instruments" "Voltage Regulator"
    (Some (191 # 2)) (Some (369 # 4)) (Some (5 # 4)).

(** Two rows that differ in the match score only: zero, and none. *)
Definition zeroMatch : Component :=
  part "a" "NE555" "Texas Instruments" "Timer" (Some 0%Q) None None.

Definition noMatch : Component :=
  part "b" "NE556" "Texas Instruments" "Timer" None None None.

Definition byMatchAscending : ComponentTable.TableState :=
  {| ComponentTable.sortField := ComponentTable.specMatch;
     ComponentTable.sortDirection := ComponentTable.asc;
     ComponentTable.expandedRows := ∅ |}.

(** A header strip whose part number ends in an inch mark. *)
Definition inchHeader : Component :=
  part "7" ("HDR-0.1" +:+ ExportButton.dquote) "Samtec" "Connector"
    (Some (181 # 2)) (Some 88%Q) (Some (3 # 4)).

(** A row whose manufacturer holds a quoted trade name on a line of its
    own. *)
Definition tradeName : Component :=
  part "8" "BC547"
    ("Fairchild" +:+ ExportButton.dquote +:+ ExportButton.newline +:+
     ExportButton.dquote +:+ "ON Semiconductor")
    "Transistor" (Some (181 # 2)) (Some 88%Q) (Some (3 # 4)).

Definition regulators : Schema.RecommendResponse :=
  {| Schema.components :=
       Some [answered "1" "LM7805" "Texas Instruments" "Voltage Regulator"
               (Some (191 # 2)) (Some (369 # 4)) (Some (5 # 4));
             answered "2" "LM317" "STMicroelectronics" "Voltage Regulator"
               (Some (353 # 4)) (Some (171 # 2)) (Some (15 # 16))];
     Schema.rr_query := "5V regulator"; Schema.total := 2 |}.

Definition timers : Schema.RecommendResponse :=
  {| Schema.components :=
       Some [answered "3" "NE555" "Texas Instruments" "Timer"
               (Some (181 # 2)) (Some 88%Q) (Some (3 # 4))];
     Schema.rr_query := "timer"; Schema.total := 1 |}.

(** An answer whose scores are all low. *)
Definition offTopic : Schema.RecommendResponse :=
  {| Schema.components :=
       Some [answered "4" "BC547" "Fairchild" "Transistor"
               (Some (25 # 2)) (Some 10%Q) None;
             answered "5" "1N4148" "Vishay" "Diode" None (Some 8%Q) None];
     Schema.rr_query := "banana"; Schema.total := 2 |}.

(** The page at [/search?q=5V regulator], its request in flight. *)
Definition searching : App.Sys := App.boot "5V regulator".

(** The same page with the two regulators on display. *)
Definition showing : App.Sys :=
  App.step (App.RecommendSettles 0 (Api.Fulfilled regulators)) searching.

Definition explained : Schema.ExplainResponse :=
  {| Schema.explanation := "The LM317 from STMicroelectronics is a good match.";
     Schema.component_id := "2" |}.

Definition lm317 : Component :=
  part "2" "LM317" "STMicroelectronics" "Voltage Regulator"
    (Some (353 # 4)) (Some (171 # 2)) (Some (15 # 16)).

End Sample.

(** ** More of the string built-ins *)

Module JSText.

(** [s.startsWith(p)]. *)
Definition startsWith (s p : string) : bool := String.prefix p s.

(** [s.replace(/\s+/g, rep)]: every maximal run of white space becomes
    [rep].  [inRun] says that the previous character was white space. *)
Fixpoint replaceRuns (inRun : bool) (rep s : string) : string :=
  match s with
  | EmptyString => EmptyString
  | String c s' =>
      if JS.isSpace c then
        if inRun then replaceRuns true rep s' else rep +:+ replaceRuns true rep s'
      else String c (replaceRuns false rep s')
  end.

Definition replaceSpaces (rep s : string) : string := replaceRuns false rep s.

(** No character of [s] is white space. *)
Fixpoint spaceFree (s : string) : bool :=
  match s with
  | EmptyString => true
  | String c s' => (negb (JS.isSpace c) && spaceFree s')%bool
  end.

(** Every character of [s] is white space. *)
Fixpoint allSpaces (s : string) : bool :=
  match s with
  | EmptyString => true
  | String c s' => (JS.isSpace c && allSpaces s')%bool
  end.

End JSText.

(** ** [component-table.tsx]: what a header and an expanded row show *)

Module TableView.

Import ComponentTable.

Inductive Icon := ChevronUp | ChevronDown.

(** [SortIcon]: nothing on a column that is not the sort column. *)
Definition SortIcon (t : TableState) (field : SortField) : option Icon :=
  if negb (SortField_eqb (sortField t) field) then None
  else Some (match sortDirection t with asc => ChevronUp | desc => ChevronDown end).

(** The row is rendered with its detail block. *)
Definition isExpanded (t : TableState) (id : string) : bool :=
  bool_decide (id ∈ expandedRows t).

(** [onExplain && !explanations[component.id] && ...]: the row shows
    "Loading explanation...". *)
Definition loadingShown (onExplain : bool) (explanations : gmap string string)
    (id : string) : bool :=
  (onExplain && negb (JS.truthyOptStr (explanations !! id)))%bool.

End TableView.

(** ** The export button on the search page *)

Module ExportLink.

(** [filename = "components"] and [saveAs(blob, `${filename}.csv`)]. *)
Definition savedAs (filename : option string) : string :=
  default "components" filename +:+ ".csv".

(** [disabled={components.length === 0}]. *)
Definition disabled (components : list Component) : bool :=
  Nat.eqb (length components) 0.

(** The [filename] prop the search page passes. *)
Definition searchFilename (query : string) : string :=
  "search-" +:+ JSText.replaceSpaces "-" query.

End ExportLink.

(** ** [lib/api.ts]: addresses, responses and the calls *)

Module Http.

Import Api.

(** A decoded JSON text.  The fields of an object carry each key once. *)
#[warnings="-register-all"]
Inductive Json :=
| JNull
| JBool (b : bool)
| JNum (x : Q)
| JStr (s : string)
| JArr (items : list Json)
| JObj (fields : list (string * Json)).

Definition truthy (j : Json) : bool :=
  match j with
  | JNull => false
  | JBool b => b
  | JNum x => JS.truthyNum x
  | JStr s => JS.truthyStr s
  | JArr _ | JObj _ => true
  end.

(** [`${j}`]: an array prints its items separated by commas, [null] items
    as nothing; an object prints as [[object Object]]. *)
Fixpoint toString `{Host} (j : Json) : string :=
  match j with
  | JNull => "null"
  | JBool true => "true"
  | JBool false => "false"
  | JNum x => numberToString x
  | JStr s => s
  | JArr items =>
      JS.join "," (map (fun i => match i with JNull => "" | _ => toString i end) items)
  | JObj _ => "[object Object]"
  end.

(** [j.name], for a [j] that is not [null]: [undefined] is [None]. *)
Definition field (name : string) (j : Json) : option Json :=
  match j with
  | JObj fields => snd <$> find (fun kv => String.eqb (fst kv) name) fields
  | _ => None
  end.

(** [getApiBaseUrl]: [dev] is [import.meta.env.DEV], [configured] is
    [import.meta.env.VITE_API_BASE_URL]. *)
Definition getApiBaseUrl (dev : bool) (configured : option string) : string :=
  if dev then ""
  else default "" (JS.orStr configured (Some "http://localhost:8000")).

Definition buildUrl (FASTAPI_BASE_URL path : string) : string :=
  let apiPath := if JSText.startsWith path "/api" then path else "/api" +:+ path in
  if JS.truthyStr FASTAPI_BASE_URL then FASTAPI_BASE_URL +:+ apiPath else apiPath.

Definition healthUrl (FASTAPI_BASE_URL : string) : string :=
  if JS.truthyStr FASTAPI_BASE_URL then FASTAPI_BASE_URL +:+ "/health" else "/health".

(** A [Response]: [json] is how [response.json()] settles. *)
Record Response := {
  ok : bool;
  status : Z;
  statusText : string;
  json : Settled Json
}.

(** The message of the error thrown for a response that is not [ok]. *)
Definition errorMessage `{Host} (operation : string) (response : Response) : string :=
  let errorMessage :=
    operation +:+ " failed: " +:+ numberToString (inject_Z (status response)) +:+
    " " +:+ statusText response in
  match json response with
  | Fulfilled JNull => errorMessage
  | Fulfilled errorData =>
      match field "detail" errorData with
      | Some detail =>
          if truthy detail then operation +:+ " failed: " +:+ toString detail
          else errorMessage
      | None => errorMessage
      end
  | Rejected _ => errorMessage
  end.

Definition handleResponse `{Host} (response : Response) (operation : string)
    : Settled Json :=
  if negb (ok response) then Rejected (ErrorObject (errorMessage operation response))
  else json response.

(** How [fetch] settles: with a response, whatever its status, or with the
    error of the network. *)
Definition Fetched := Settled Response.

(** The calls, from the moment [fetch] settles.  Each rethrows what it
    catches. *)
Definition call `{Host} (operation : string) (fetched : Fetched) : Settled Json :=
  match fetched with
  | Fulfilled response => handleResponse response operation
  | Rejected error => Rejected error
  end.

Definition recommend `{Host} : Fetched -> Settled Json := call "Recommendation".

(** [explain] reads [result.explanation.substring] before it returns:
    [typeError] is what that throws when [result] is [null] or
    [result.explanation] has no [substring]. *)
Definition explain `{Host} (typeError : Thrown) (fetched : Fetched) : Settled Json :=
  match call "Explanation" fetched with
  | Fulfilled result =>
      match field "explanation" result with
      | Some (JStr _) => Fulfilled result
      | _ => Rejected typeError
      end
  | Rejected error => Rejected error
  end.

Definition health `{Host} : Fetched -> Settled Json := call "Health check".

Definition status_ `{Host} : Fetched -> Settled Json := call "Status check".

(** [testConnection] against a network that answers [net] at each address:
    how it settles and the addresses it fetched, in order. *)
Definition testConnection `{Host} (FASTAPI_BASE_URL : string) (net : string -> Fetched)
    : Settled unit * list string :=
  let healthUrl := healthUrl FASTAPI_BASE_URL in
  let statusUrl := buildUrl FASTAPI_BASE_URL "/status" in
  match health (net healthUrl) with
  | Rejected error => (Rejected error, [healthUrl])
  | Fulfilled _ =>
      match status_ (net statusUrl) with
      | Rejected error => (Rejected error, [healthUrl; statusUrl])
      | Fulfilled _ => (Fulfilled tt, [healthUrl; statusUrl])
      end
  end.

(** The decoded body read at the type the caller asserts. *)
Definition typed {A} (view : Json -> A) (r : Settled Json) : Settled A :=
  match r with
  | Fulfilled data => Fulfilled (view data)
  | Rejected error => Rejected error
  end.

End Http.

(** ** The connection debugger *)

Module ApiDebugger.

Import Api.

Record TestResult := {
  success : bool;
  data : option Http.Json;
  error : option string;
  duration : Z;
  timestamp : string
}.

Record State := {
  testResults : gmap string TestResult;
  loading : option string
}.

Definition initial : State := {| testResults := ∅; loading := None |}.

(** The names of the four entries of [tests]. *)
Definition tests : list string :=
  ["Health Check"; "API Status"; "Test Recommendation"; "Full Connection Test"].

(** One execution of a test: how [test.fn()] settles ([None] for a call
    that returns nothing), the two readings of [Date.now()] and the text of
    [new Date().toISOString()]. *)
Record Execution := {
  outcome : Settled (option Http.Json);
  startTime : Z;
  endTime : Z;
  isoString : string
}.

(** [runTest] up to its [await]. *)
Definition runTest_begin (name : string) (st : State) : State :=
  {| testResults := testResults st; loading := Some name |}.

Definition recorded (x : Execution) : TestResult :=
  match outcome x with
  | Fulfilled result =>
      {| success := true; data := result; error := None;
         duration := endTime x - startTime x; timestamp := isoString x |}
  | Rejected err =>
      {| success := false; data := None;
         error := Some (match err with
                        | ErrorObject message => message
                        | OtherValue => "Unknown error"
                        end);
         duration := endTime x - startTime x; timestamp := isoString x |}
  end.

(** [runTest] from the moment the call settles. *)
Definition runTest_resume (name : string) (x : Execution) (st : State) : State :=
  {| testResults := <[name := recorded x]> (testResults st); loading := None |}.

Definition runTest (name : string) (x : Execution) (st : State) : State :=
  runTest_resume name x (runTest_begin name st).

(** [runAllTests] over the tests named [names]; [exec] is the execution of
    each. *)
Fixpoint runAll (names : list string) (exec : string -> Execution) (st : State) : State :=
  match names with
  | [] => st
  | name :: rest => runAll rest exec (runTest name (exec name) st)
  end.

Definition runAllTests : (string -> Execution) -> State -> State := runAll tests.

Definition clearResults (st : State) : State :=
  {| testResults := ∅; loading := loading st |}.

(** What the card of a test shows. *)
Inductive Card := NotRun | Success (ms : Z) | Failed (ms : Z) (message : string)
                | FailedSilently (ms : Z).

Definition card (st : State) (name : string) : Card :=
  match testResults st !! name with
  | None => NotRun
  | Some r =>
      if success r then Success (duration r)
      else if JS.truthyOptStr (error r) then Failed (duration r) (default "" (error r))
      else FailedSilently (duration r)
  end.

End ApiDebugger.

(** ** The search bar *)

Module SearchBar.

(** [handleSubmit]: what [onSearch] is called with, if it is called. *)
Definition handleSubmit (query : string) : option string :=
  if JS.truthyStr (JS.trim query) then Some (JS.trim query) else None.

(** [disabled={isLoading || !query.trim()}] on the submit button. *)
Definition disabled (isLoading : bool) (query : string) : bool :=
  (isLoading || negb (JS.truthyStr (JS.trim query)))%bool.

End SearchBar.

(** ** Answers of the service to run the calls on *)

Module Replies.

Import Api Http.

(** An error status with a reason in the body. *)
Definition notFound : Response :=
  {| ok := false; status := 404; statusText := "Not Found";
     json := Fulfilled (JObj [("detail", JStr "Component 42 not found")]) |}.

(** An error status with a page of HTML for a body. *)
Definition unavailable : Response :=
  {| ok := false; status := 503; statusText := "Service Unavailable";
     json := Rejected (ErrorObject "Unexpected token < in JSON at position 0") |}.

(** A success status with a body that has no explanation in it. *)
Definition noText : Response :=
  {| ok := true; status := 200; statusText := "OK";
     json := Fulfilled (JObj [("component_id", JStr "2")]) |}.

(** The suspended call for the explanation of the LM317. *)
Definition forLm317 : SearchResults.Pending :=
  {| SearchResults.componentId := "2"; SearchResults.component := Sample.lm317;
     SearchResults.askedQuery := "5V regulator" |}.

End Replies.

(** * Properties *)

(** ** Sorting *)

Section Insertion.

Context {A : Type} (cmp : A -> A -> Q).

Local Abbreviation notAfter := (ComponentTable.notAfter cmp).

Hypothesis cmp_total : forall x y, ComponentTable.after (cmp x y) = true -> notAfter y x.
Hypothesis cmp_trans : forall x y z, notAfter x y -> notAfter y z -> notAfter x z.

Lemma after_false x y : ComponentTable.after (cmp x y) = false <-> notAfter x y.
Proof.
  unfold ComponentTable.after, ComponentTable.notAfter.
  rewrite negb_false_iff. apply Qle_bool_iff.
Qed.

Lemma place_Permutation x l : Permutation (x :: l) (ComponentTable.place cmp x l).
Proof.
  induction l as [|y l IH]; simpl; [reflexivity|].
  destruct (ComponentTable.after (cmp x y)); [|reflexivity].
  rewrite perm_swap. now constructor.
Qed.

Lemma sort_Permutation l : Permutation l (ComponentTable.sort cmp l).
Proof.
  induction l as [|x l IH]; simpl; [constructor|].
  rewrite <- place_Permutation. now constructor.
Qed.

Lemma place_StronglySorted x l :
  StronglySorted notAfter l -> StronglySorted notAfter (ComponentTable.place cmp x l).
Proof.
  induction l as [|y l IH]; intros Hs; simpl.
  - repeat constructor.
  - inversion Hs as [|? ? Hs' Hall]; subst.
    destruct (ComponentTable.after (cmp x y)) eqn:E.
    + constructor; [auto|].
      apply (Permutation_Forall (place_Permutation x l)).
      constructor; auto.
    + apply after_false in E.
      constructor; [assumption|].
      constructor; [assumption|].
      eapply Forall_impl; [exact Hall|].
      intros z Hz. simpl in Hz. eapply cmp_trans; eauto.
Qed.

Lemma sort_StronglySorted l : StronglySorted notAfter (ComponentTable.sort cmp l).
Proof.
  induction l; simpl; [constructor|]. now apply place_StronglySorted.
Qed.

End Insertion.

(** A list that is already in comparator order is left as it is: ties keep
    the order of the input. *)
Lemma sort_sorted_id {A} (cmp : A -> A -> Q) l :
  StronglySorted (ComponentTable.notAfter cmp) l -> ComponentTable.sort cmp l = l.
Proof.
  induction 1 as [|x l Hs IH Hall]; simpl; [reflexivity|].
  rewrite IH. destruct l as [|y l]; simpl; [reflexivity|].
  inversion Hall as [|? ? Hxy _]; subst.
  apply after_false in Hxy. now rewrite Hxy.
Qed.

Lemma after_true r : ComponentTable.after r = true <-> (0 < r)%Q.
Proof.
  unfold ComponentTable.after. rewrite negb_true_iff.
  split; intros Hr.
  - apply Qnot_le_lt. intros Hle. apply Qle_bool_iff in Hle. congruence.
  - destruct (Qle_bool r 0) eqn:E; [|reflexivity].
    apply Qle_bool_iff in E. exfalso. eapply Qlt_not_le; eauto.
Qed.

Lemma scaled_asc_le z : (inject_Z z * 1 <= 0)%Q <-> z <= 0.
Proof. unfold Qle, Qmult, inject_Z; simpl. lia. Qed.

Lemma scaled_desc_le z : (inject_Z z * -1 <= 0)%Q <-> 0 <= z.
Proof. unfold Qle, Qmult, inject_Z; simpl. lia. Qed.

Lemma scaled_asc_lt z : (0 < inject_Z z * 1)%Q <-> 0 < z.
Proof. unfold Qlt, Qmult, inject_Z; simpl. lia. Qed.

Lemma scaled_desc_lt z : (0 < inject_Z z * -1)%Q <-> z < 0.
Proof. unfold Qlt, Qmult, inject_Z; simpl. lia. Qed.

Section Comparator.

Context {H : Host} {HL : HostLaws H}.

Import ComponentTable.

Lemma localeCompare_ge s t : 0 <= localeCompare s t <-> localeCompare t s <= 0.
Proof.
  pose proof (localeCompare_flip s t) as Hf.
  destruct (localeCompare s t), (localeCompare t s); simpl in Hf; lia.
Qed.

Lemma localeCompare_gt s t : 0 < localeCompare s t <-> localeCompare t s < 0.
Proof.
  pose proof (localeCompare_flip s t) as Hf.
  destruct (localeCompare s t), (localeCompare t s); simpl in Hf; lia.
Qed.

Lemma localeCompare_trans_ge s t u :
  0 <= localeCompare s t -> 0 <= localeCompare t u -> 0 <= localeCompare s u.
Proof.
  rewrite !localeCompare_ge. intros; eapply localeCompare_trans; eauto.
Qed.

Lemma empty_before_number x : localeCompare "" (numberToString x) < 0.
Proof. apply localeCompare_gt, numberToString_after_empty. Qed.

Ltac columns f d :=
  destruct f, d; unfold inOrder, compareFn, prop; simpl;
  repeat match goal with
         | |- context [fmap _ ?o] => destruct o; simpl
         end;
  rewrite ?scaled_asc_le, ?scaled_desc_le, ?scaled_asc_lt, ?scaled_desc_lt.

Ltac host_facts :=
  repeat match goal with
         | x : Q |- _ =>
             lazymatch goal with
             | _ : 0 < localeCompare (numberToString x) "" |- _ => fail
             | _ => pose proof (numberToString_after_empty x);
                    pose proof (empty_before_number x)
             end
         end;
  pose proof (localeCompare_refl "").

Lemma compareFn_total f d a b :
  after (compareFn f d a b) = true -> inOrder f d b a.
Proof.
  rewrite after_true.
  columns f d; host_facts; intros Hab;
    first [ lra | lia
          | apply localeCompare_gt in Hab; lia
          | apply localeCompare_ge; lia ].
Qed.

Lemma compareFn_trans f d a b c :
  inOrder f d a b -> inOrder f d b c -> inOrder f d a c.
Proof.
  columns f d; host_facts; intros Hab Hbc;
    first [ lra | lia
          | eapply localeCompare_trans; eassumption
          | eapply localeCompare_trans_ge; eassumption ].
Qed.

End Comparator.

(** ** The sample host obeys the laws *)

Lemma ascii_compare_refl c : Ascii.compare c c = Eq.
Proof. unfold Ascii.compare. apply N.compare_refl. Qed.

Lemma string_compare_refl s : String.compare s s = Eq.
Proof. induction s as [|c s IH]; simpl; [reflexivity|]. now rewrite ascii_compare_refl. Qed.

Lemma string_compare_trans s : forall t u,
  String.compare s t <> Gt -> String.compare t u <> Gt -> String.compare s u <> Gt.
Proof.
  induction s as [|a s IH]; intros [|b t] [|c u]; simpl; try congruence.
  unfold Ascii.compare.
  destruct (N.compare_spec (N_of_ascii a) (N_of_ascii b)) as [Eab|Lab|Gab];
  destruct (N.compare_spec (N_of_ascii b) (N_of_ascii c)) as [Ebc|Lbc|Gbc];
  destruct (N.compare_spec (N_of_ascii a) (N_of_ascii c)) as [Eac|Lac|Gac];
  try congruence; try lia; eauto.
Qed.

Lemma natDigits_nonempty n : JS.natDigits n <> "".
Proof.
  unfold JS.natDigits, NilZero.string_of_uint.
  destruct (N.to_uint (Z.to_N n)); simpl; congruence.
Qed.

Lemma printNumber_nonempty x : Sample.printNumber x <> "".
Proof.
  unfold Sample.printNumber.
  pose proof (natDigits_nonempty (Qfloor (Qabs x))) as Hn.
  destruct (JS.natDigits (Qfloor (Qabs x))); [congruence|].
  destruct (Qle_bool 0 x); simpl; discriminate.
Qed.

Lemma sample_laws : HostLaws Sample.host.
Proof.
  constructor; simpl; unfold Sample.ordinalCompare.
  - intros s. now rewrite string_compare_refl.
  - intros s t. rewrite (String.compare_antisym s t).
    destruct (String.compare t s); reflexivity.
  - intros s t u Hst Htu.
    pose proof (string_compare_trans s t u) as Htr.
    destruct (String.compare s t), (String.compare t u), (String.compare s u);
      try lia; exfalso; apply Htr; congruence.
  - intros x. pose proof (printNumber_nonempty x) as Hx.
    destruct (Sample.printNumber x); [congruence|]. simpl. lia.
Qed.

(** ** The sorted view *)

Section SortedView.

Context {H : Host}.

Import ComponentTable.







(** C4: for every list of components and every sort field, toggling the
    direction on that field twice gives back the sort state, and with it
    the displayed list: when the table is sorted on the field, two clicks on
    its header flip the direction and flip it back; and from any state, once
    a click has put the sort on the field, two more clicks return to the
    list that click displayed. *)
Theorem handleSort_twice (components : list Component) (field : SortField)
    (t : TableState) :
  (sortField t = field ->
   handleSort field (handleSort field t) = t /\
   sortedComponents components (handleSort field (handleSort field t))
     = sortedComponents components t) /\
  (handleSort field (handleSort field (handleSort field t)) = handleSort field t /\
   sortedComponents components (handleSort field (handleSort field (handleSort field t)))
     = sortedComponents components (handleSort field t)).
Proof.
  assert (forall u, sortField u = field -> handleSort field (handleSort field u) = u)
    as Htwice.
  { intros u <-. destruct u as [f d e]. unfold handleSort. simpl.
    destruct f, d; reflexivity. }
  assert (sortField (handleSort field t) = field) as Hsel.
  { unfold handleSort. destruct (SortField_eqb (sortField t) field) eqn:E; simpl; [|reflexivity].
    destruct (sortField t), field; simpl in E; congruence. }
  split.
  - intros Hf. rewrite (Htwice t Hf). split; reflexivity.
  - rewrite (Htwice _ Hsel). split; reflexivity.
Qed.

(** A first click on another column is not a toggle: it selects the column
    in descending order, whatever the direction was. *)
Lemma handleSort_other_field field t :
  sortField t <> field ->
  handleSort field t =
    {| sortField := field; sortDirection := desc; expandedRows := expandedRows t |}.
Proof.
  intros Hne. unfold handleSort.
  destruct (sortField t), field; simpl; congruence.
Qed.

(** On every host that obeys the laws, a row without a match score is
    sorted in front of a row whose score is zero. *)
Lemma missing_number_sorts_first (HL : HostLaws H) :
  sortedComponents [Sample.zeroMatch; Sample.noMatch] Sample.byMatchAscending
    = [Sample.noMatch; Sample.zeroMatch] /\
  Spec.sortedComponents [Sample.zeroMatch; Sample.noMatch] Sample.byMatchAscending
    = [Sample.zeroMatch; Sample.noMatch].
Proof.
  split.
  - unfold sortedComponents. cbn [sort place Sample.byMatchAscending sortField sortDirection].
    assert (after (compareFn specMatch asc Sample.zeroMatch Sample.noMatch) = true) as ->.
    { apply after_true. unfold compareFn. cbn.
      pose proof (numberToString_after_empty 0) as H0.
      unfold Qlt, Qmult, inject_Z; simpl. lia. }
    reflexivity.
  - reflexivity.
Qed.

End SortedView.


(** Two clicks on the total-score header from the default sort state. *)
Lemma handleSort_twice_witness :
  ComponentTable.sortField ComponentTable.initial = ComponentTable.totalScore /\
  ComponentTable.handleSort ComponentTable.totalScore
    (ComponentTable.handleSort ComponentTable.totalScore ComponentTable.initial)
  = ComponentTable.initial.
Proof.
  split; [reflexivity|].
  exact (proj1 (proj1 (@handleSort_twice Sample.host [Sample.lm317; Sample.lm7805]
                         ComponentTable.totalScore ComponentTable.initial) eq_refl)).
Defined.


(** ** Strings *)

#[local] Arguments String.append : simpl nomatch.

Lemma append_assoc (s t u : string) : (s +:+ t) +:+ u = s +:+ t +:+ u.
Proof. induction s as [|c s IH]; simpl; [reflexivity|]. now rewrite IH. Qed.

Lemma append_empty_r (s : string) : s +:+ "" = s.
Proof. induction s as [|c s IH]; simpl; [reflexivity|]. now rewrite IH. Qed.

Lemma length_append (s t : string) :
  String.length (s +:+ t) = (String.length s + String.length t)%nat.
Proof. induction s as [|c s IH]; simpl; [reflexivity|]. now rewrite IH. Qed.

Lemma allDigits_append s t :
  JS.allDigits (s +:+ t) = (JS.allDigits s && JS.allDigits t)%bool.
Proof.
  induction s as [|c s IH]; simpl; [reflexivity|].
  rewrite IH. now rewrite andb_assoc.
Qed.

Lemma join_two sep x y l :
  JS.join sep (x :: y :: l) = x +:+ sep +:+ JS.join sep (y :: l).
Proof. reflexivity. Qed.

Lemma join_empty_cons x l : JS.join "" (x :: l) = x +:+ JS.join "" l.
Proof.
  destruct l as [|y l]; [simpl; now rewrite append_empty_r|].
  rewrite join_two. reflexivity.
Qed.

(** [join] as a first item followed by separated items. *)
Lemma join_cons sep x xs :
  JS.join sep (x :: xs) = x +:+ JS.join "" (map (fun y => sep +:+ y) xs).
Proof.
  revert x. induction xs as [|y ys IH]; intros x.
  - simpl. now rewrite append_empty_r.
  - rewrite join_two, IH. simpl map.
    rewrite join_empty_cons. now rewrite append_assoc.
Qed.

Lemma firstLine_header (a rest : string) :
  JS.firstLine a = a ->
  rest = "" \/ (exists r, rest = ExportButton.newline +:+ r) ->
  JS.firstLine (a +:+ rest) = a.
Proof.
  intros Ha Hrest. induction a as [|c a IH]; simpl in *.
  - destruct Hrest as [->|[r ->]]; reflexivity.
  - destruct (Ascii.eqb c "010"); [discriminate|].
    f_equal. apply IH. congruence.
Qed.

(** ** Fixed notation *)

Lemma isDigit_digitChar d : 0 <= d < 10 -> JS.isDigit (JS.digitChar d) = true.
Proof.
  intros Hd. unfold JS.isDigit, JS.digitChar.
  rewrite nat_ascii_embedding by lia.
  apply andb_true_intro; split; apply Nat.leb_le; lia.
Qed.

Lemma fixedDigits_length f : forall k, String.length (JS.fixedDigits f k) = f.
Proof.
  induction f as [|f IH]; intros k; simpl; [reflexivity|].
  rewrite length_append, IH. simpl. lia.
Qed.

Lemma fixedDigits_allDigits f : forall k, JS.allDigits (JS.fixedDigits f k) = true.
Proof.
  induction f as [|f IH]; intros k; simpl; [reflexivity|].
  rewrite allDigits_append, IH. cbn [JS.allDigits andb].
  rewrite isDigit_digitChar; [reflexivity|].
  apply Z.mod_pos_bound. lia.
Qed.

Lemma string_of_uint_allDigits d : JS.allDigits (NilEmpty.string_of_uint d) = true.
Proof. induction d; simpl; auto. Qed.

Lemma natDigits_allDigits n : JS.allDigits (JS.natDigits n) = true.
Proof.
  unfold JS.natDigits, NilZero.string_of_uint.
  destruct (N.to_uint (Z.to_N n)) eqn:E; try reflexivity;
    rewrite <- E; apply string_of_uint_allDigits.
Qed.

Section FixedNotation.

Context {H : Host}.

Lemma toFixed_in_range x f :
  (Qabs x < inject_Z (10 ^ 21))%Q ->
  JS.toFixed x f =
    (if Qle_bool 0 x then "" else "-") +:+
    JS.natDigits (JS.roundScaled (Qabs x) f / 10 ^ Z.of_nat f) +:+
    match f with
    | O => ""
    | _ => "." +:+ JS.fixedDigits f (JS.roundScaled (Qabs x) f mod 10 ^ Z.of_nat f)
    end.
Proof.
  intros Hx. unfold JS.toFixed.
  destruct (Qle_bool (inject_Z (10 ^ 21)) (Qabs x)) eqn:E; [|reflexivity].
  apply Qle_bool_iff in E. exfalso. eapply Qlt_not_le; eauto.
Qed.

Lemma toFixed_fixedNotation x f :
  (Qabs x < inject_Z (10 ^ 21))%Q -> f <> O ->
  JS.fixedNotation f (JS.toFixed x f).
Proof.
  intros Hx Hf. rewrite toFixed_in_range by assumption.
  destruct f as [|f]; [congruence|].
  eexists _, _, _. split; [reflexivity|].
  split; [destruct (Qle_bool 0 x); auto|].
  split; [apply natDigits_nonempty|].
  split; [apply natDigits_allDigits|].
  split; [apply fixedDigits_allDigits | apply fixedDigits_length].
Qed.

End FixedNotation.

(** ** The export *)

Section CsvLayout.

Context {H : Host}.

Import ExportButton.

Lemma exportToCSV_lines components :
  exportToCSV components =
    JS.join "," headers +:+ JS.join "" (map (fun c => newline +:+ line c) components).
Proof.
  unfold exportToCSV. rewrite join_cons, !List.map_map. reflexivity.
Qed.

Lemma numberCell_fixedOrEmpty f v : f <> O -> numberCell f v (fixedOrEmpty v f).
Proof.
  intros Hf. destruct v as [x|]; simpl; [|reflexivity].
  split; [reflexivity|]. intros Hx. now apply toFixed_fixedNotation.
Qed.

Lemma line_cells (c : Component) :
  line c =
    dquote +:+ default "" (JS.orStr (JS.orStr (Schema.part_number c) (Schema.partNumber c))
                             (Some "")) +:+ dquote +:+ "," +:+
    dquote +:+ default "" (JS.orStr (Schema.manufacturer c) (Some "")) +:+ dquote +:+ "," +:+
    dquote +:+ default "" (JS.orStr (Schema.category c) (Some "")) +:+ dquote +:+ "," +:+
    dquote +:+ fixedOrEmpty (JS.orNum (Schema.spec_match c) (Schema.specMatch c)) 1
      +:+ dquote +:+ "," +:+
    dquote +:+ fixedOrEmpty (JS.orNum (Schema.total_score c) (Schema.totalScore c)) 1
      +:+ dquote +:+ "," +:+
    dquote +:+ fixedOrEmpty (Schema.price c) 2 +:+ dquote +:+ "," +:+
    dquote +:+ default "" (Schema.stock c) +:+ dquote.
Proof.
  unfold line, row, quoted.
  generalize dquote
    (default "" (JS.orStr (JS.orStr (Schema.part_number c) (Schema.partNumber c)) (Some "")))
    (default "" (JS.orStr (Schema.manufacturer c) (Some "")))
    (default "" (JS.orStr (Schema.category c) (Some "")))
    (fixedOrEmpty (JS.orNum (Schema.spec_match c) (Schema.specMatch c)) 1)
    (fixedOrEmpty (JS.orNum (Schema.total_score c) (Schema.totalScore c)) 1)
    (fixedOrEmpty (Schema.price c) 2) (default "" (Schema.stock c)).
  intros q a b d e f g h. cbn [map JS.join].
  rewrite !append_assoc. reflexivity.
Qed.

(** For every list of components the exported text starts with the header
    line [Part Number,Manufacturer,Category,Spec Match,Total Score,Price,
    Stock] and goes on with one line per component, in order; the line of a
    component is its seven cells, each between two double-quote characters,
    separated by commas.  A score cell holds the snake-case score when that
    is a number other than zero, the camel-case score when the snake-case
    one is missing, both with one fraction digit, and nothing when both are
    missing; the price cell holds the price with two fraction digits, or
    nothing. *)
Theorem exportToCSV_layout (components : list Component) :
  JS.firstLine (exportToCSV components)
    = "Part Number,Manufacturer,Category,Spec Match,Total Score,Price,Stock" /\
  exportToCSV components
    = "Part Number,Manufacturer,Category,Spec Match,Total Score,Price,Stock"
      +:+ JS.join "" (map (fun c => newline +:+ line c) components) /\
  forall c : Component,
    exists pn mf cat sm ts pr st,
      line c = dquote +:+ pn +:+ dquote +:+ "," +:+ dquote +:+ mf +:+ dquote +:+ ","
               +:+ dquote +:+ cat +:+ dquote +:+ "," +:+ dquote +:+ sm +:+ dquote +:+ ","
               +:+ dquote +:+ ts +:+ dquote +:+ "," +:+ dquote +:+ pr +:+ dquote +:+ ","
               +:+ dquote +:+ st +:+ dquote /\
      pn = default "" (JS.orStr (JS.orStr (Schema.part_number c) (Schema.partNumber c)) (Some "")) /\
      mf = default "" (JS.orStr (Schema.manufacturer c) (Some "")) /\
      cat = default "" (JS.orStr (Schema.category c) (Some "")) /\
      (forall x, Schema.spec_match c = Some x -> ~ (x == 0)%Q -> numberCell 1 (Some x) sm) /\
      (Schema.spec_match c = None -> numberCell 1 (Schema.specMatch c) sm) /\
      (forall x, Schema.total_score c = Some x -> ~ (x == 0)%Q -> numberCell 1 (Some x) ts) /\
      (Schema.total_score c = None -> numberCell 1 (Schema.totalScore c) ts) /\
      numberCell 2 (Schema.price c) pr /\
      st = default "" (Schema.stock c).
Proof.
  split; [|split].
  - rewrite exportToCSV_lines. apply firstLine_header; [reflexivity|].
    destruct components as [|c cs]; [now left|right].
    exists (line c +:+ JS.join "" (map (fun c => newline +:+ line c) cs)).
    simpl map. rewrite join_empty_cons. rewrite ?append_assoc. reflexivity.
  - apply exportToCSV_lines.
  - intros c.
    assert (forall a b x, a = Some x -> ~ (x == 0)%Q -> JS.orNum a b = Some x) as Hfirst.
    { intros a b x -> Hx. unfold JS.orNum, JS.truthyOptNum, JS.truthyNum.
      destruct (Qeq_bool x 0) eqn:E; [|reflexivity].
      apply Qeq_bool_iff in E. contradiction. }
    assert (forall a b, a = None -> JS.orNum a b = b) as Hsecond.
    { intros a b ->. reflexivity. }
    exists (default "" (JS.orStr (JS.orStr (Schema.part_number c) (Schema.partNumber c))
                          (Some ""))),
      (default "" (JS.orStr (Schema.manufacturer c) (Some ""))),
      (default "" (JS.orStr (Schema.category c) (Some ""))),
      (fixedOrEmpty (JS.orNum (Schema.spec_match c) (Schema.specMatch c)) 1),
      (fixedOrEmpty (JS.orNum (Schema.total_score c) (Schema.totalScore c)) 1),
      (fixedOrEmpty (Schema.price c) 2), (default "" (Schema.stock c)).
    split; [apply line_cells|].
    split; [reflexivity|]. split; [reflexivity|]. split; [reflexivity|].
    split; [intros x Hx Hnz; rewrite (Hfirst _ _ x Hx Hnz);
            apply numberCell_fixedOrEmpty; congruence|].
    split; [intros Hnone; rewrite (Hsecond _ _ Hnone);
            apply numberCell_fixedOrEmpty; congruence|].
    split; [intros x Hx Hnz; rewrite (Hfirst _ _ x Hx Hnz);
            apply numberCell_fixedOrEmpty; congruence|].
    split; [intros Hnone; rewrite (Hsecond _ _ Hnone);
            apply numberCell_fixedOrEmpty; congruence|].
    split; [apply numberCell_fixedOrEmpty; congruence|reflexivity].
Qed.

End CsvLayout.

(** C7 at an input the export can receive: a component answered with a
    match score and a total score of zero, and a price of zero.  The two
    score cells are empty, where the claim has them written with one
    fraction digit; the price cell, which does not go through [||], reads
    [0.00], and the same scores under the camel-case keys are written
    [0.0]. *)
Lemma exportToCSV_zero_score :
  @ExportButton.exportToCSV Sample.host [Sample.zeroScored] =
    "Part Number,Manufacturer,Category,Spec Match,Total Score,Price,Stock"
    +:+ ExportButton.newline
    +:+ ExportButton.dquote +:+ "BAT54" +:+ ExportButton.dquote +:+ ","
    +:+ ExportButton.dquote +:+ "Nexperia" +:+ ExportButton.dquote +:+ ","
    +:+ ExportButton.dquote +:+ "Diode" +:+ ExportButton.dquote +:+ ","
    +:+ ExportButton.dquote +:+ ExportButton.dquote +:+ ","
    +:+ ExportButton.dquote +:+ ExportButton.dquote +:+ ","
    +:+ ExportButton.dquote +:+ "0.00" +:+ ExportButton.dquote +:+ ","
    +:+ ExportButton.dquote +:+ "In Stock" +:+ ExportButton.dquote /\
  Csv.dataRows (@ExportButton.exportToCSV Sample.host [Sample.zeroScored])
    = Some [["BAT54"; "Nexperia"; "Diode"; ""; ""; "0.00"; "In Stock"]] /\
  Csv.dataRows (@ExportButton.exportToCSV Sample.host [Sample.zeroListed])
    = Some [["BAT54"; "Nexperia"; "Diode"; "0.0"; "0.0"; "0.00"; "In Stock"]].
Proof. repeat split; vm_compute; reflexivity. Qed.

(** C6 at two inputs the export can receive.  A part number that ends in
    an inch mark is written between quotes as it is, so the quote closes
    the cell early and the file no longer reads back; a manufacturer text
    with a quoted name on a line of its own reads back as two records for
    one component, the second of which starts with part of the
    manufacturer. *)
Lemma exportToCSV_unescaped_quote :
  Csv.dataRows (@ExportButton.exportToCSV Sample.host [Sample.inchHeader]) = None /\
  Csv.dataRows (@ExportButton.exportToCSV Sample.host [Sample.tradeName])
    = Some [["BC547"; "Fairchild"];
            ["ON Semiconductor"; "Transistor"; "90.5"; "88.0"; "0.75"; "In Stock"]].
Proof. split; vm_compute; reflexivity. Qed.

(** ** Reading numerals back *)

Lemma digitsValue_acc d : forall acc : positive,
  Csv.digitsValue (Z.pos acc) (NilEmpty.string_of_uint d)
  = Some (Z.pos (Pos.of_uint_acc d acc)).
Proof.
  induction d; intros acc; cbn [NilEmpty.string_of_uint Pos.of_uint_acc Csv.digitsValue];
    [reflexivity|..]; rewrite <- IHd; cbn [Csv.digitVal]; simpl; f_equal;
    repeat match goal with
           | |- context [nat_of_ascii ?c] =>
               let v := eval vm_compute in (nat_of_ascii c) in
               change (nat_of_ascii c) with v
           end; lia.
Qed.

Lemma digitsValue_of_uint d :
  Csv.digitsValue 0 (NilEmpty.string_of_uint d) = Some (Z.of_N (Pos.of_uint d)).
Proof.
  induction d; cbn [NilEmpty.string_of_uint Pos.of_uint Csv.digitsValue];
    [reflexivity|assumption|..]; simpl; apply digitsValue_acc.
Qed.

Lemma digitsValue_natDigits m :
  0 <= m -> Csv.digitsValue 0 (JS.natDigits m) = Some m.
Proof.
  intros Hm. unfold JS.natDigits, NilZero.string_of_uint.
  pose proof (DecimalN.Unsigned.of_to (Z.to_N m)) as Hof.
  destruct (N.to_uint (Z.to_N m)) eqn:E.
  1: { simpl in Hof. change (Some 0 = Some m). f_equal. lia. }
  all: rewrite <- E, digitsValue_of_uint; rewrite E; unfold N.of_uint in Hof;
       rewrite Hof; f_equal; lia.
Qed.

Lemma digitsValue_append s : forall acc t,
  Csv.digitsValue acc (s +:+ t)
  = match Csv.digitsValue acc s with
    | Some v => Csv.digitsValue v t
    | None => None
    end.
Proof.
  induction s as [|c s IH]; intros acc t; simpl; [reflexivity|].
  destruct (Csv.digitVal c); [apply IH|reflexivity].
Qed.

Lemma digitVal_digitChar d : 0 <= d < 10 -> Csv.digitVal (JS.digitChar d) = Some d.
Proof.
  intros Hd. unfold Csv.digitVal, JS.digitChar.
  rewrite nat_ascii_embedding by lia.
  replace (Nat.leb 48 (48 + Z.to_nat d) && Nat.leb (48 + Z.to_nat d) 57)%bool with true.
  - f_equal. lia.
  - symmetry. apply andb_true_intro; split; apply Nat.leb_le; lia.
Qed.

Lemma digitsValue_fixedDigits f : forall acc k,
  0 <= k ->
  Csv.digitsValue acc (JS.fixedDigits f k)
  = Some (acc * 10 ^ Z.of_nat f + k mod 10 ^ Z.of_nat f).
Proof.
  induction f as [|f IH]; intros acc k Hk.
  - simpl. f_equal. rewrite Z.mod_1_r. lia.
  - cbn [JS.fixedDigits]. rewrite digitsValue_append, IH by (apply Z.div_pos; lia).
    cbn [Csv.digitsValue]. rewrite digitVal_digitChar by (apply Z.mod_pos_bound; lia).
    f_equal. rewrite Nat2Z.inj_succ, Z.pow_succ_r by lia.
    pose proof (Z.pow_pos_nonneg 10 (Z.of_nat f) ltac:(lia) ltac:(lia)) as Hpow.
    rewrite (Z.rem_mul_r k 10 (10 ^ Z.of_nat f)) by lia.
    lia.
Qed.

Lemma splitPoint_digits int rest :
  JS.allDigits int = true ->
  Csv.splitPoint (int +:+ String "." rest) = (int, Some rest).
Proof.
  induction int as [|c int IH]; intros Hd; [reflexivity|].
  cbn [JS.allDigits] in Hd. apply andb_true_iff in Hd as [Hc Hd].
  cbn [String.append Csv.splitPoint]. rewrite (IH Hd).
  destruct (Ascii.eqb c ".") eqn:E; [|reflexivity].
  apply Ascii.eqb_eq in E. subst c. discriminate Hc.
Qed.

Lemma isDigit_not_minus c : JS.isDigit c = true -> Ascii.eqb c "-" = false.
Proof.
  intros Hc. destruct (Ascii.eqb c "-") eqn:E; [|reflexivity].
  apply Ascii.eqb_eq in E. subst c. discriminate Hc.
Qed.

Lemma roundScaled_nonneg x f : 0 <= JS.roundScaled (Qabs x) f.
Proof.
  unfold JS.roundScaled. destruct x as [p d]. simpl.
  apply Z.div_pos; [|lia].
  pose proof (Z.pow_pos_nonneg 10 (Z.of_nat f) ltac:(lia) ltac:(lia)). nia.
Qed.

Lemma readUnsigned_numeral n f :
  0 <= n -> f <> O ->
  Csv.readUnsigned
    (JS.natDigits (n / 10 ^ Z.of_nat f) +:+ "." +:+
     JS.fixedDigits f (n mod 10 ^ Z.of_nat f))
  = Some (Qmake n (Z.to_pos (10 ^ Z.of_nat f))).
Proof.
  intros Hn Hf.
  pose proof (Z.pow_pos_nonneg 10 (Z.of_nat f) ltac:(lia) ltac:(lia)) as Hpow.
  unfold Csv.readUnsigned.
  change ("." +:+ JS.fixedDigits f (n mod 10 ^ Z.of_nat f))
    with (String "." (JS.fixedDigits f (n mod 10 ^ Z.of_nat f))).
  rewrite splitPoint_digits by apply natDigits_allDigits.
  pose proof (natDigits_nonempty (n / 10 ^ Z.of_nat f)) as Hint.
  pose proof (fixedDigits_length f (n mod 10 ^ Z.of_nat f)) as Hlen.
  pose proof (digitsValue_fixedDigits f (n / 10 ^ Z.of_nat f) (n mod 10 ^ Z.of_nat f)
                ltac:(apply Z.mod_pos_bound; lia)) as Hfrac.
  pose proof (digitsValue_natDigits (n / 10 ^ Z.of_nat f)
                ltac:(apply Z.div_pos; lia)) as Hval.
  destruct (JS.natDigits (n / 10 ^ Z.of_nat f)) as [|c int] eqn:Ei; [congruence|].
  destruct (JS.fixedDigits f (n mod 10 ^ Z.of_nat f)) as [|c' frac] eqn:Ef;
    [simpl in Hlen; congruence|].
  cbn [default from_option id]. rewrite digitsValue_append, Hval. cbv beta iota.
  unfold id. rewrite Hfrac. cbn [mbind option_bind].
  rewrite Hlen, Z.mod_mod by lia. f_equal. f_equal.
  rewrite (Z.div_mod n (10 ^ Z.of_nat f)) at 3 by lia. lia.
Qed.

Section ReadBack.

Context {H : Host}.

Lemma readDecimal_toFixed x f :
  (Qabs x < inject_Z (10 ^ 21))%Q -> f <> O ->
  Csv.readDecimal (JS.toFixed x f)
  = Some (let y := Qmake (JS.roundScaled (Qabs x) f) (Z.to_pos (10 ^ Z.of_nat f)) in
          if Qle_bool 0 x then y else Qopp y).
Proof.
  intros Hx Hf. rewrite toFixed_in_range by assumption.
  pose proof (roundScaled_nonneg x f) as Hn.
  pose proof (readUnsigned_numeral _ f Hn Hf) as Hread.
  destruct f as [|f]; [congruence|].
  pose proof (natDigits_nonempty (JS.roundScaled (Qabs x) (S f) / 10 ^ Z.of_nat (S f))) as Hint.
  pose proof (natDigits_allDigits (JS.roundScaled (Qabs x) (S f) / 10 ^ Z.of_nat (S f))) as Hall.
  destruct (Qle_bool 0 x); cbv beta zeta iota.
  - match goal with |- context ["" +:+ ?s] => change ("" +:+ s) with s end.
    rewrite <- Hread.
    destruct (JS.natDigits _) as [|c int] eqn:Ei; [congruence|].
    cbn [JS.allDigits] in Hall. apply andb_true_iff in Hall as [Hc _].
    change (String c int +:+ ?r) with (String c (int +:+ r)).
    unfold Csv.readDecimal. now rewrite (isDigit_not_minus c Hc).
  - match goal with |- context ["-" +:+ ?s] => change ("-" +:+ s) with (String "-" s) end.
    unfold Csv.readDecimal.
    replace (Ascii.eqb "-" "-") with true by reflexivity.
    rewrite Hread. reflexivity.
Qed.

End ReadBack.

Lemma roundScaled_close x f :
  (Qabs (Qmake (JS.roundScaled (Qabs x) f) (Z.to_pos (10 ^ Z.of_nat f)) - Qabs x)
   <= 1 # Z.to_pos (2 * 10 ^ Z.of_nat f))%Q.
Proof.
  pose proof (Z.pow_pos_nonneg 10 (Z.of_nat f) ltac:(lia) ltac:(lia)) as Hpow.
  unfold JS.roundScaled. destruct x as [p d]. cbn [Qabs Qnum Qden].
  set (P := 10 ^ Z.of_nat f) in *.
  set (a := Z.abs p). assert (0 <= a) as Ha by (unfold a; lia).
  pose proof (Z.div_mod (2 * (a * P) + Z.pos d) (2 * Z.pos d) ltac:(lia)) as Hdm.
  pose proof (Z.mod_pos_bound (2 * (a * P) + Z.pos d) (2 * Z.pos d) ltac:(lia)) as Hr.
  set (n := (2 * (a * P) + Z.pos d) / (2 * Z.pos d)) in *.
  set (r := (2 * (a * P) + Z.pos d) mod (2 * Z.pos d)) in *.
  apply Qabs_Qle_condition.
  unfold Qle, Qminus, Qplus, Qopp; cbn [Qnum Qden].
  rewrite !Pos2Z.inj_mul, !Z2Pos.id by lia.
  split; nia.
Qed.

Section PriceReadBack.

Context {H : Host}.

(** A number written by [toFixed] with [f] fraction digits reads back to
    within half a unit of the last digit. *)
Lemma toFixed_reads_back x f :
  (Qabs x < inject_Z (10 ^ 21))%Q -> f <> O ->
  exists y,
    Csv.readDecimal (JS.toFixed x f) = Some y /\
    (Qabs (y - x) <= 1 # Z.to_pos (2 * 10 ^ Z.of_nat f))%Q.
Proof.
  intros Hx Hf. eexists. split; [now apply readDecimal_toFixed|].
  cbv zeta. pose proof (roundScaled_close x f) as Hc.
  set (n := JS.roundScaled (Qabs x) f) in *.
  set (y := Qmake n (Z.to_pos (10 ^ Z.of_nat f))) in *.
  destruct (Qle_bool 0 x) eqn:E.
  - apply Qle_bool_iff in E. now rewrite (Qabs_pos x E) in Hc.
  - assert (x <= 0)%Q as Hneg.
    { apply Qlt_le_weak, Qnot_le_lt. intros Hle. apply Qle_bool_iff in Hle. congruence. }
    rewrite (Qabs_neg x Hneg) in Hc.
    rewrite <- Qabs_opp.
    assert (- (- y - x) == y - - x)%Q as Heq by ring.
    rewrite Heq. exact Hc.
Qed.

End PriceReadBack.

(** ** Reading the export back *)

Lemma pushAll_field cell f r rs :
  Csv.pushAll cell ((f :: r) :: rs) = ((cell +:+ f) :: r) :: rs.
Proof.
  induction cell as [|c cell IH]; [reflexivity|].
  cbn [Csv.pushAll]. rewrite IH. reflexivity.
Qed.

Lemma read_Quoted_plain cell rest :
  Csv.plain cell = true ->
  Csv.read Csv.Quoted (cell +:+ String "034" rest)
  = Csv.pushAll cell <$> Csv.read Csv.QuoteSeen rest.
Proof.
  induction cell as [|c cell IH]; intros Hp.
  - cbn [String.append Csv.read Csv.pushAll].
    replace (Csv.isQuote "034") with true by reflexivity.
    now destruct (Csv.read Csv.QuoteSeen rest).
  - cbn [Csv.plain] in Hp. apply andb_true_iff in Hp as [Hc Hp].
    apply negb_true_iff in Hc.
    cbn [String.append Csv.read]. rewrite Hc, (IH Hp).
    now destruct (Csv.read Csv.QuoteSeen rest).
Qed.

Lemma read_QuoteSeen_follows rest rows :
  Csv.follows rest rows -> Csv.read Csv.QuoteSeen rest = Some ([""] :: rows).
Proof.
  intros [[-> ->]|(more & -> & Hmore)]; [reflexivity|].
  cbn [Csv.read]. replace (Csv.isQuote "010") with false by reflexivity.
  replace (Csv.isComma "010") with false by reflexivity.
  replace (Csv.isLF "010") with true by reflexivity.
  now rewrite Hmore.
Qed.

Lemma read_Bare_follows rest rows :
  Csv.follows rest rows -> Csv.read Csv.Bare rest = Some ([""] :: rows).
Proof.
  intros [[-> ->]|(more & -> & Hmore)]; [reflexivity|].
  cbn [Csv.read]. replace (Csv.isQuote "010") with false by reflexivity.
  replace (Csv.isComma "010") with false by reflexivity.
  replace (Csv.isLF "010") with true by reflexivity.
  now rewrite Hmore.
Qed.

Lemma quoted_append cell rest :
  ExportButton.quoted cell +:+ rest = String "034" (cell +:+ String "034" rest).
Proof.
  unfold ExportButton.quoted, ExportButton.dquote.
  rewrite !append_assoc. reflexivity.
Qed.

(** A line of quoted cells reads back as those cells. *)
Lemma read_quoted_line cells : forall rest rows,
  cells <> [] -> Forall (fun cell => Csv.plain cell = true) cells ->
  Csv.follows rest rows ->
  Csv.read Csv.FieldStart (JS.join "," (map ExportButton.quoted cells) +:+ rest)
  = Some (cells :: rows).
Proof.
  induction cells as [|c cells IH]; intros rest rows Hne Hall Hrest; [congruence|].
  inversion Hall as [|? ? Hc Hcells]; subst.
  destruct cells as [|c2 cells].
  - cbn [map JS.join]. rewrite quoted_append.
    cbn [Csv.read]. replace (Csv.isQuote "034") with true by reflexivity.
    rewrite (read_Quoted_plain c rest Hc), (read_QuoteSeen_follows rest rows Hrest).
    cbn [fmap option_fmap option_map]. rewrite pushAll_field.
    now rewrite append_empty_r.
  - change (map ExportButton.quoted (c :: c2 :: cells))
      with (ExportButton.quoted c :: map ExportButton.quoted (c2 :: cells)).
    cbn [map]. rewrite join_two. rewrite !append_assoc, quoted_append.
    cbn [Csv.read]. replace (Csv.isQuote "034") with true by reflexivity.
    rewrite (read_Quoted_plain c _ Hc).
    change ("," +:+ ?s) with (String "," s).
    cbn [Csv.read]. replace (Csv.isQuote ",") with false by reflexivity.
    replace (Csv.isComma ",") with true by reflexivity.
    change (ExportButton.quoted c2 :: map ExportButton.quoted cells)
      with (map ExportButton.quoted (c2 :: cells)).
    rewrite (IH rest rows ltac:(congruence) Hcells Hrest).
    cbn [fmap option_fmap option_map Csv.nextField]. rewrite pushAll_field.
    now rewrite append_empty_r.
Qed.

Lemma read_Bare_chars cell rest :
  Csv.bareChars cell = true ->
  Csv.read Csv.Bare (cell +:+ rest) = Csv.pushAll cell <$> Csv.read Csv.Bare rest.
Proof.
  induction cell as [|c cell IH]; intros Hb.
  - cbn [String.append Csv.pushAll]. now destruct (Csv.read Csv.Bare rest).
  - cbn [Csv.bareChars] in Hb.
    apply andb_true_iff in Hb as [Hb Hcell]. apply andb_true_iff in Hb as [Hb Hlf].
    apply andb_true_iff in Hb as [Hq Hcomma].
    apply negb_true_iff in Hq, Hcomma, Hlf.
    cbn [String.append Csv.read]. rewrite Hq, Hcomma, Hlf, (IH Hcell).
    now destruct (Csv.read Csv.Bare rest).
Qed.

Lemma read_FieldStart_bare cell rest :
  Csv.bare cell = true ->
  Csv.read Csv.FieldStart (cell +:+ rest) = Csv.pushAll cell <$> Csv.read Csv.Bare rest.
Proof.
  destruct cell as [|c cell]; [discriminate|]. intros Hb.
  pose proof (read_Bare_chars (String c cell) rest Hb) as Hbare.
  cbn [Csv.bare Csv.bareChars] in Hb.
  apply andb_true_iff in Hb as [Hb Hcell]. apply andb_true_iff in Hb as [Hb Hlf].
  apply andb_true_iff in Hb as [Hq Hcomma].
  apply negb_true_iff in Hq, Hcomma, Hlf.
  rewrite <- Hbare. cbn [String.append Csv.read]. now rewrite Hq, Hcomma, Hlf.
Qed.

(** A line of bare cells reads back as those cells. *)
Lemma read_bare_line cells : forall rest rows,
  cells <> [] -> Forall (fun cell => Csv.bare cell = true) cells ->
  Csv.follows rest rows ->
  Csv.read Csv.FieldStart (JS.join "," cells +:+ rest) = Some (cells :: rows).
Proof.
  induction cells as [|c cells IH]; intros rest rows Hne Hall Hrest; [congruence|].
  inversion Hall as [|? ? Hc Hcells]; subst.
  destruct cells as [|c2 cells].
  - cbn [JS.join]. rewrite (read_FieldStart_bare c rest Hc).
    rewrite (read_Bare_follows rest rows Hrest).
    cbn [fmap option_fmap option_map]. rewrite pushAll_field.
    now rewrite append_empty_r.
  - rewrite join_two, !append_assoc. rewrite (read_FieldStart_bare c _ Hc).
    change ("," +:+ ?s) with (String "," s).
    cbn [Csv.read]. replace (Csv.isQuote ",") with false by reflexivity.
    replace (Csv.isComma ",") with true by reflexivity.
    rewrite (IH rest rows ltac:(congruence) Hcells Hrest).
    cbn [fmap option_fmap option_map Csv.nextField]. rewrite pushAll_field.
    now rewrite append_empty_r.
Qed.

Lemma read_header rest rows :
  Csv.follows rest rows ->
  Csv.read Csv.FieldStart (JS.join "," ExportButton.headers +:+ rest)
  = Some (ExportButton.headers :: rows).
Proof.
  intros Hrest. apply read_bare_line; [discriminate| |assumption].
  repeat constructor.
Qed.

Section ReadExport.

Context {H : Host}.

Import ExportButton.

Lemma lines_follow components :
  Forall (fun c => Forall (fun cell => Csv.plain cell = true) (row c)) components ->
  Csv.follows (JS.join "" (map (fun c => newline +:+ line c) components))
    (map row components).
Proof.
  induction components as [|c cs IH]; intros Hall; [now left|right].
  inversion Hall as [|? ? Hc Hcs]; subst.
  exists (line c +:+ JS.join "" (map (fun c => newline +:+ line c) cs)).
  split.
  - cbn [map]. rewrite join_empty_cons. unfold newline.
    rewrite append_assoc. reflexivity.
  - cbn [map]. unfold line. apply read_quoted_line; [discriminate|assumption|auto].
Qed.

(** Where no cell holds a double quote the export reads back: the header,
    then for each component, in order, its seven cells as exported. *)
Lemma exportToCSV_reads_back components :
  Forall (fun c => Forall (fun cell => Csv.plain cell = true) (row c)) components ->
  Csv.parse (exportToCSV components) = Some (headers :: map row components) /\
  Csv.dataRows (exportToCSV components) = Some (map row components).
Proof.
  intros Hall. unfold Csv.dataRows, Csv.parse.
  rewrite exportToCSV_lines, (read_header _ _ (lines_follow components Hall)).
  split; reflexivity.
Qed.

(** In that case there are as many data rows as components, the first cell
    of a row is the part number of its component, and its price cell reads
    back to the price within half a cent. *)
Lemma exportToCSV_round_trip components :
  Forall (fun c => Forall (fun cell => Csv.plain cell = true) (row c)) components ->
  exists rows,
    Csv.dataRows (exportToCSV components) = Some rows /\
    length rows = length components /\
    forall i c, components !! i = Some c ->
      exists mf cat sm ts pr st,
        rows !! i =
          Some [default "" (JS.orStr (JS.orStr (Schema.part_number c) (Schema.partNumber c))
                              (Some ""));
                mf; cat; sm; ts; pr; st] /\
        forall p, Schema.price c = Some p -> (Qabs p < inject_Z (10 ^ 21))%Q ->
          exists y, Csv.readDecimal pr = Some y /\ (Qabs (y - p) <= 1 # 200)%Q.
Proof.
  intros Hall. exists (map row components).
  split; [apply (exportToCSV_reads_back components Hall)|].
  split; [apply length_map|].
  intros i c Hi.
  assert (map row components !! i = Some (row c)) as Hrow.
  { change (map row components) with (row <$> components).
    rewrite list_lookup_fmap, Hi. reflexivity. }
  rewrite Hrow. unfold row. eexists _, _, _, _, _, _. split; [reflexivity|].
  intros p Hp Hrange. rewrite Hp. cbn [fixedOrEmpty].
  destruct (toFixed_reads_back p 2 Hrange ltac:(congruence)) as (y & Hy & Hclose).
  exists y. split; assumption.
Qed.

End ReadExport.

(** ** The search action *)

Section Search.

Import Api SearchResults.

Lemma Qltb_true x y : Qltb x y = true <-> (x < y)%Q.
Proof.
  unfold Qltb. rewrite negb_true_iff. split; intros Hxy.
  - apply Qnot_le_lt. intros Hle. apply Qle_bool_iff in Hle. congruence.
  - destruct (Qle_bool y x) eqn:E; [|reflexivity].
    apply Qle_bool_iff in E. exfalso. eapply Qlt_not_le; eauto.
Qed.

Lemma Qmax_lt x y b : (x < b)%Q -> (y < b)%Q -> (Qmax x y < b)%Q.
Proof. intros Hx Hy. unfold Qmax. destruct (Qle_bool x y); assumption. Qed.

Lemma Qmax_le_l x y : (x <= Qmax x y)%Q.
Proof.
  unfold Qmax. destruct (Qle_bool x y) eqn:E; [now apply Qle_bool_iff|apply Qle_refl].
Qed.

Lemma Qmax_le_r x y : (y <= Qmax x y)%Q.
Proof.
  unfold Qmax. destruct (Qle_bool x y) eqn:E; [apply Qle_refl|].
  apply Qlt_le_weak, Qnot_le_lt. intros Hle. apply Qle_bool_iff in Hle. congruence.
Qed.

Lemma fold_Qmax_lt b xs : forall x,
  (x < b)%Q -> Forall (fun y => (y < b)%Q) xs -> (fold_left Qmax xs x < b)%Q.
Proof.
  induction xs as [|y ys IH]; intros x Hx Hall; simpl; [assumption|].
  inversion Hall; subst. apply IH; [now apply Qmax_lt|assumption].
Qed.

Lemma fold_Qmax_ge xs : forall x,
  (x <= fold_left Qmax xs x)%Q /\ Forall (fun y => (y <= fold_left Qmax xs x)%Q) xs.
Proof.
  induction xs as [|y ys IH]; intros x; simpl; [split; [apply Qle_refl|constructor]|].
  destruct (IH (Qmax x y)) as [Hm Hall].
  split; [eapply Qle_trans; [apply Qmax_le_l|exact Hm]|].
  constructor; [eapply Qle_trans; [apply Qmax_le_r|exact Hm]|assumption].
Qed.

(** [maxScore] is an upper bound of the scores, and lies below every strict
    bound of them. *)
Lemma maxScore_upper cs : Forall (fun c => (scoreOf c <= maxScore cs)%Q) cs.
Proof.
  unfold maxScore. destruct cs as [|c cs]; [constructor|]. simpl map.
  destruct (fold_Qmax_ge (map scoreOf cs) (scoreOf c)) as [Hc Hcs].
  constructor; [exact Hc|].
  exact (proj1 (List.Forall_map scoreOf
                  (fun y => (y <= fold_left Qmax (map scoreOf cs) (scoreOf c))%Q) cs) Hcs).
Qed.

Lemma maxScore_below b cs :
  cs <> [] -> Forall (fun c => (scoreOf c < b)%Q) cs -> (maxScore cs < b)%Q.
Proof.
  intros Hne Hall. unfold maxScore. destruct cs as [|c cs]; [congruence|].
  simpl map. inversion Hall; subst.
  apply fold_Qmax_lt; [assumption|].
  apply (proj2 (List.Forall_map scoreOf (fun y => (y < b)%Q) cs)). assumption.
Qed.

Lemma splitSpaces_nonempty s : forall inRun, JS.splitSpaces inRun s <> [].
Proof.
  induction s as [|c s IH]; intros inRun; simpl; [congruence|].
  destruct (JS.isSpace c).
  - destruct inRun; [apply IH|congruence].
  - destruct (JS.splitSpaces false s); congruence.
Qed.

Lemma includes_In xs w : In w xs -> JS.includes xs w = true.
Proof.
  intros Hin. unfold JS.includes. apply existsb_exists.
  exists w. split; [assumption|apply String.eqb_refl].
Qed.

Lemma allWordsBad_invalid searchQuery :
  Forall (fun w => In w obviouslyBadTerms)
    (JS.split_ws (JS.toLowerCase (JS.trim searchQuery))) ->
  isValidElectronicsQuery searchQuery = false.
Proof.
  intros Hall. unfold isValidElectronicsQuery.
  match goal with |- (if ?b then _ else _) = _ => destruct b end; [reflexivity|].
  apply negb_false_iff, andb_true_intro. split.
  - pose proof (splitSpaces_nonempty (JS.toLowerCase (JS.trim searchQuery)) false) as Hne.
    unfold JS.split_ws.
    destruct (JS.splitSpaces false (JS.toLowerCase (JS.trim searchQuery)));
      [congruence|reflexivity].
  - apply forallb_forall. intros w Hw.
    apply includes_In. rewrite List.Forall_forall in Hall. now apply Hall.
Qed.

Lemma truthyStr_nonempty s : s <> "" -> JS.truthyStr s = true.
Proof. destruct s; [congruence|reflexivity]. Qed.

(** C10: a search can end in the error state with an empty result list
    although no request failed.  A query whose words (lower-cased, split at
    white space) are all on the list of software terms is turned down
    before anything is sent; and an answer with at least one component
    whose [spec_match] scores are all below 50 is replaced by an error and
    an empty list. *)
Theorem search_rejected_without_failure (searchQuery : string) (st : State) :
  (Forall (fun w => In w obviouslyBadTerms)
     (JS.split_ws (JS.toLowerCase (JS.trim searchQuery))) ->
   let st' := {| query := query st; components := []; isLoading := false;
                 error := Some (blockedMessage searchQuery);
                 explanations := explanations st |} in
   searchComponents_begin searchQuery st = (st', None) /\ render st' = ErrorPanel) /\
  (forall response cs,
     Schema.components response = Some cs -> cs <> [] ->
     Forall (fun c => (scoreOf c < 50)%Q) cs ->
     let st' := {| query := query st; components := []; isLoading := false;
                   error := Some (lowRelevanceMessage searchQuery);
                   explanations := explanations st |} in
     (maxScore cs < 50)%Q /\
     searchComponents_resume searchQuery (Fulfilled response) st = Normal st' /\
     render st' = ErrorPanel).
Proof.
  split.
  - intros Hall st'. split; [|reflexivity].
    unfold searchComponents_begin. now rewrite allWordsBad_invalid.
  - intros response cs Hcs Hne Hall st'.
    pose proof (maxScore_below 50 cs Hne Hall) as Hmax.
    split; [assumption|]. split; [|reflexivity].
    unfold searchComponents_resume, tryCatchFinally, andThen, await,
      searchComponents_body.
    rewrite Hcs. simpl default.
    apply Qltb_true in Hmax. rewrite Hmax.
    destruct cs as [|c cs]; [congruence|]. reflexivity.
Qed.


End Search.

(** ** Explanations *)

Section Explanations.

Import Api SearchResults ComponentTable App.

Lemma remount_page s : page (remount s) = page s.
Proof. unfold remount. destruct (tableMounted (page s)); reflexivity. Qed.

Lemma remount_sent s : sent (remount s) = sent s.
Proof. unfold remount. destruct (tableMounted (page s)); reflexivity. Qed.

Lemma remount_explainCalls s : explainCalls (remount s) = explainCalls s.
Proof. unfold remount. destruct (tableMounted (page s)); reflexivity. Qed.

Lemma displayed_find id st :
  displayed id st = true ->
  exists c, find (fun c => String.eqb (Schema.id c) id) (components st) = Some c /\
            Schema.id c = id.
Proof.
  unfold displayed. induction (components st) as [|c cs IH]; simpl; [discriminate|].
  destruct (String.eqb (Schema.id c) id) eqn:E; simpl.
  - intros _. exists c. split; [reflexivity|]. now apply String.eqb_eq.
  - exact IH.
Qed.

(** What [handleExplain] does when it is called for a displayed row. *)
Lemma handleExplain_begin_displayed id st :
  displayed id st = true ->
  if JS.truthyOptStr (explanations st !! id) then handleExplain_begin id st = (st, None)
  else exists c,
    find (fun c => String.eqb (Schema.id c) id) (components st) = Some c /\
    Schema.id c = id /\
    handleExplain_begin id st =
      (st, Some {| componentId := id; component := c; askedQuery := query st |}).
Proof.
  intros Hd. unfold handleExplain_begin.
  destruct (JS.truthyOptStr (explanations st !! id)); [reflexivity|].
  destruct (displayed_find id st Hd) as (c & Hfind & Hid).
  exists c. rewrite Hfind. auto.
Qed.

(** What a click on a row does to the page, the suspended calls and the
    requests. *)
Lemma clickRow_handle id s :
  if asks id s then
    exists c t,
      find (fun c => String.eqb (Schema.id c) id) (components (page s)) = Some c /\
      Schema.id c = id /\
      handle (ClickRow id) s =
        {| page := page s; table := t; recommendCalls := recommendCalls s;
           explainCalls := explainCalls s ++
             [{| componentId := id; component := c; askedQuery := query (page s) |}];
           sent := Explain id (query (page s)) :: sent s |}
  else
    exists t, handle (ClickRow id) s = withTable t s.
Proof.
  unfold asks, cached, handle, toggleRow.
  destruct (tableMounted (page s)); simpl; [|exists (table s); now destruct s].
  destruct (displayed id (page s)) eqn:Hd; simpl; [|exists (table s); now destruct s].
  destruct (decide (id ∈ expandedRows (table s))) as [Hin|Hin].
  - rewrite bool_decide_eq_true_2 by assumption. simpl. eauto.
  - rewrite bool_decide_eq_false_2 by assumption. simpl.
    pose proof (handleExplain_begin_displayed id (page s) Hd) as Hb.
    destruct (JS.truthyOptStr (explanations (page s) !! id)); simpl; [eauto|].
    destruct Hb as (c & Hfind & Hid & ->). simpl.
    exists c. eexists. repeat split; eauto.
Qed.

(** What the settling of an explanation request does. *)
Lemma explainSettles_handle n r s :
  match explainCalls s !! n with
  | Some p =>
      handle (ExplainSettles n r) s =
        {| page := setExplanation (componentId p)
                     (match r with
                      | Fulfilled _ => correctedExplanation (component p) (askedQuery p)
                      | Rejected _ => fallbackExplanation (component p) (askedQuery p)
                      end) (page s);
           table := table s; recommendCalls := recommendCalls s;
           explainCalls := delete n (explainCalls s); sent := sent s |}
  | None => handle (ExplainSettles n r) s = s
  end.
Proof.
  unfold handle. destruct (explainCalls s !! n) as [p|]; [|reflexivity].
  destruct r; reflexivity.
Qed.

Lemma searchComponents_resume_explanations q r st :
  exists st', searchComponents_resume q r st = Normal st' /\
              explanations st' = explanations st /\ query st' = query st.
Proof.
  unfold searchComponents_resume, tryCatchFinally. eexists. split; [reflexivity|].
  destruct r as [response|err]; simpl.
  - unfold searchComponents_body.
    destruct (_ && _)%bool; split; reflexivity.
  - split; reflexivity.
Qed.

Lemma explainRequests_cons_recommend id q k l :
  length (filter (fun r => isExplainFor id r = true) (Recommend q k :: l))
  = length (filter (fun r => isExplainFor id r = true) l).
Proof. rewrite filter_cons_False; [reflexivity|]. simpl. congruence. Qed.

Lemma aside_handle e s :
  aside e ->
  explanations (page (handle e s)) = explanations (page s) /\
  explainCalls (handle e s) = explainCalls s /\
  forall id, explainRequests id (handle e s) = explainRequests id s.
Proof.
  destruct e as [q| |f|id|n r|n r]; intros Ha; try (exfalso; exact Ha); unfold handle.
  - destruct (String.eqb q (query (page s))); [auto|].
    unfold queryEffect, searchComponents_begin. simpl.
    destruct (JS.truthyStr q); [destruct (negb (isValidElectronicsQuery q))|];
      simpl; repeat split; intros; unfold explainRequests; simpl;
      rewrite ?explainRequests_cons_recommend; reflexivity.
  - destruct (render (page s)); auto.
    unfold searchComponents_begin.
    destruct (negb (isValidElectronicsQuery (query (page s))));
      simpl; repeat split; intros; unfold explainRequests; simpl;
      rewrite ?explainRequests_cons_recommend; reflexivity.
  - destruct (tableMounted (page s)); auto.
  - destruct (recommendCalls s !! n) as [q|]; [|auto].
    destruct (searchComponents_resume_explanations q r (page s)) as (st' & -> & He & _).
    cbv zeta. simpl. auto.
Qed.

Lemma run_invariant (P : Sys -> Prop) :
  (forall e s, P s -> P (step e s)) ->
  forall es s, P s -> P (run es s).
Proof.
  intros Hstep es. induction es as [|e es IH]; intros s Hs; simpl; auto.
Qed.

Lemma reachable_invariant (P : Sys -> Prop) :
  (forall q, P (boot q)) ->
  (forall e s, P s -> P (step e s)) ->
  forall s, reachable s -> P s.
Proof.
  intros Hboot Hstep s (q & es & ->). apply run_invariant; auto.
Qed.

Lemma boot_frames q :
  explanations (page (boot q)) = ∅ /\ explainCalls (boot q) = [] /\
  forall id, explainRequests id (boot q) = 0%nat.
Proof.
  unfold boot, queryEffect, searchComponents_begin. simpl.
  destruct (JS.truthyStr q); [destruct (negb (isValidElectronicsQuery q))|];
    simpl; repeat split; reflexivity.
Qed.

Lemma run_snoc es : forall e s, run (es ++ [e]) s = step e (run es s).
Proof.
  induction es as [|e' es IH]; intros e s; simpl; [reflexivity|apply IH].
Qed.

(** Requests are only ever added. *)
Lemma step_sent e s : exists new, sent (step e s) = new ++ sent s.
Proof.
  unfold step. rewrite remount_sent.
  destruct e as [q| |f|id|n r|n r].
  - unfold handle. destruct (String.eqb q (query (page s))); [now exists []|].
    unfold queryEffect, searchComponents_begin. cbn [query setQuery].
    destruct (JS.truthyStr q); [destruct (negb (isValidElectronicsQuery q))|];
      cbn; solve [now exists [] | eexists [_]; reflexivity].
  - unfold handle. destruct (render (page s)); try (now exists []).
    unfold searchComponents_begin.
    destruct (negb (isValidElectronicsQuery (query (page s))));
      cbn; solve [now exists [] | eexists [_]; reflexivity].
  - unfold handle. destruct (tableMounted (page s)); now exists [].
  - pose proof (clickRow_handle id s) as Hc. destruct (asks id s).
    + destruct Hc as (c & t & _ & _ & ->). eexists [_]. reflexivity.
    + destruct Hc as (t & ->). now exists [].
  - unfold handle. destruct (recommendCalls s !! n) as [q|]; [|now exists []].
    destruct (searchComponents_resume q r (page s)); now exists [].
  - pose proof (explainSettles_handle n r s) as Hs.
    destruct (explainCalls s !! n) as [p|]; rewrite Hs; now exists [].
Qed.

Lemma step_sent_incl e s r : In r (sent s) -> In r (sent (step e s)).
Proof.
  intros Hin. destruct (step_sent e s) as [new ->]. apply in_or_app. now right.
Qed.

Lemma issued_snoc query0 events e p :
  issued query0 events p -> issued query0 (events ++ [e]) p.
Proof.
  intros (before & after & -> & Hreq). exists before, (after ++ [e]).
  split; [|exact Hreq]. now rewrite <- app_assoc.
Qed.

Lemma wellAttributed_boot query0 : wellAttributed query0 [].
Proof.
  destruct (boot_frames query0) as (He & Hc & _). unfold wellAttributed.
  cbn [run]. rewrite He, Hc. split; [constructor|].
  intros k v Hk. rewrite lookup_empty in Hk. discriminate.
Qed.

Lemma wellAttributed_snoc query0 events e :
  wellAttributed query0 events -> wellAttributed query0 (events ++ [e]).
Proof.
  intros [Hcalls Hcache]. unfold wellAttributed. rewrite run_snoc.
  set (s := run events (boot query0)) in *.
  assert (forall p, issued query0 events p /\
                      In (Explain (componentId p) (askedQuery p)) (sent s) ->
                    issued query0 (events ++ [e]) p /\
                      In (Explain (componentId p) (askedQuery p)) (sent (step e s)))
    as Hkeep.
  { intros p [Hi Hs]. split; [now apply issued_snoc|now apply step_sent_incl]. }
  assert (forall k v, attributed query0 events k v ->
                      exists p, issued query0 (events ++ [e]) p /\ componentId p = k /\
                        In (Explain k (askedQuery p)) (sent (step e s)) /\
                        (v = correctedExplanation (component p) (askedQuery p) \/
                         v = fallbackExplanation (component p) (askedQuery p)))
    as Hold.
  { intros k v (p & Hi & Hk & Hs & Hv). exists p.
    split; [now apply issued_snoc|]. split; [assumption|].
    split; [now apply step_sent_incl|assumption]. }
  unfold attributed. rewrite run_snoc. fold s.
  destruct e as [q| |f|id|n r|n r].
  1-3, 5: match goal with |- context [step ?e0 ?s0] =>
      assert (explainCalls (step e0 s0) = explainCalls s0 /\
              explanations (page (step e0 s0)) = explanations (page s0)) as (-> & ->)
        by (unfold step; rewrite remount_page, remount_explainCalls;
            destruct (aside_handle e0 s0 I) as (-> & -> & _); split; reflexivity)
    end;
    (split; [eapply List.Forall_impl; [exact Hkeep|exact Hcalls]|]);
    intros k v Hk; apply Hold, Hcache, Hk.
  - pose proof (clickRow_handle id s) as Hclick.
    pose proof (step_sent (ClickRow id) s) as Hsent.
    destruct (asks id s) eqn:Hasks.
    + destruct Hclick as (c & t & Hfind & _ & Hh).
      assert (explainCalls (step (ClickRow id) s) =
              explainCalls s ++
                [{| componentId := id; component := c; askedQuery := query (page s) |}]
              /\ explanations (page (step (ClickRow id) s)) = explanations (page s)
              /\ sent (step (ClickRow id) s) = Explain id (query (page s)) :: sent s)
        as (-> & -> & Hs).
      { unfold step. rewrite remount_page, remount_explainCalls, remount_sent, Hh.
        repeat split; reflexivity. }
      split.
      * apply List.Forall_app. split.
        -- eapply List.Forall_impl; [exact Hkeep|exact Hcalls].
        -- constructor; [|constructor]. cbn. split.
           ++ exists events, []. split; [reflexivity|].
              unfold requested. cbn. fold s. auto.
           ++ rewrite Hs. now left.
      * intros k v Hk. apply Hold, Hcache, Hk.
    + destruct Hclick as (t & Hh).
      assert (explainCalls (step (ClickRow id) s) = explainCalls s /\
              explanations (page (step (ClickRow id) s)) = explanations (page s))
        as (-> & ->).
      { unfold step. rewrite remount_page, remount_explainCalls, Hh. split; reflexivity. }
      split; [eapply List.Forall_impl; [exact Hkeep|exact Hcalls]|].
      intros k v Hk. apply Hold, Hcache, Hk.
  - pose proof (explainSettles_handle n r s) as Hsettle.
    destruct (explainCalls s !! n) as [p|] eqn:Hp.
    + assert (explainCalls (step (ExplainSettles n r) s) = delete n (explainCalls s) /\
              explanations (page (step (ExplainSettles n r) s)) =
                <[componentId p :=
                    match r with
                    | Fulfilled _ => correctedExplanation (component p) (askedQuery p)
                    | Rejected _ => fallbackExplanation (component p) (askedQuery p)
                    end]> (explanations (page s)))
        as (-> & ->).
      { unfold step. rewrite remount_page, remount_explainCalls, Hsettle.
        split; reflexivity. }
      assert (issued query0 events p /\
              In (Explain (componentId p) (askedQuery p)) (sent s)) as Hmine.
      { rewrite List.Forall_forall in Hcalls. apply Hcalls.
        apply list_elem_of_In. eapply list_elem_of_lookup_2; eauto. }
      split.
      * apply Forall_delete. eapply List.Forall_impl; [exact Hkeep|exact Hcalls].
      * intros k v. destruct (decide (componentId p = k)) as [<-|Hne].
        -- rewrite lookup_insert_eq. intros [= <-]. exists p.
           destruct (Hkeep p Hmine) as [Hi Hs].
           split; [exact Hi|]. split; [reflexivity|]. split; [exact Hs|].
           destruct r; auto.
        -- rewrite lookup_insert_ne by assumption. intros Hk.
           apply Hold, Hcache, Hk.
    + assert (explainCalls (step (ExplainSettles n r) s) = explainCalls s /\
              explanations (page (step (ExplainSettles n r) s)) = explanations (page s))
        as (-> & ->).
      { unfold step. rewrite remount_page, remount_explainCalls, Hsettle.
        split; reflexivity. }
      split; [eapply List.Forall_impl; [exact Hkeep|exact Hcalls]|].
      intros k v Hk. apply Hold, Hcache, Hk.
Qed.

(** Every suspended call and every entry of the cache goes back to a click
    on the row of its identifier. *)
Lemma run_wellAttributed query0 events : wellAttributed query0 events.
Proof.
  induction events as [|e events IH] using rev_ind;
    [apply wellAttributed_boot|now apply wellAttributed_snoc].
Qed.



Lemma explainSettles_explanations s n r p :
  explainCalls s !! n = Some p ->
  exists text,
    JS.truthyStr text = true /\
    (text = correctedExplanation (component p) (askedQuery p) \/
     text = fallbackExplanation (component p) (askedQuery p)) /\
    explanations (page (step (ExplainSettles n r) s))
      = <[componentId p := text]> (explanations (page s)).
Proof.
  intros Hp. unfold step. rewrite remount_page.
  pose proof (explainSettles_handle n r s) as Hs. rewrite Hp in Hs. rewrite Hs.
  destruct r; eexists; (split; [|split; [|reflexivity]]); auto.
Qed.

(** What the settling of a suspended call does to the cache and to the
    suspended calls. *)
Lemma explainSettles_step s n r p :
  explainCalls s !! n = Some p ->
  explanations (page (step (ExplainSettles n r) s)) =
    <[componentId p :=
        match r with
        | Fulfilled _ => correctedExplanation (component p) (askedQuery p)
        | Rejected _ => fallbackExplanation (component p) (askedQuery p)
        end]> (explanations (page s)) /\
  explainCalls (step (ExplainSettles n r) s) = delete n (explainCalls s).
Proof.
  intros Hp. unfold step. rewrite remount_page, remount_explainCalls.
  pose proof (explainSettles_handle n r s) as Hs. rewrite Hp in Hs. rewrite Hs.
  split; reflexivity.
Qed.

(** C5: an explanation is stored under the identifier it was requested
    for, whatever the answer says and in whatever order answers arrive.
    A click that asks sends the request for the identifier of its row and
    the current query, and suspends a call for the component listed under
    that identifier.  When a suspended call settles, the entry of its own
    identifier becomes the text made from its own component and query (the
    body of the answer plays no part), every other entry stays as it was,
    and the call is removed.  Two suspended calls for different identifiers
    leave the same cache whichever settles first, each identifier holding
    the text of its own call.  And after any sequence of events, every
    entry of the cache goes back to a click on the row of its key: its text
    is the one made from the component listed under that key, and the query,
    at that click, and the request for that key and query was sent. *)
Theorem explanation_attributed_to_request :
  (forall s id,
     asks id s = true ->
     exists c,
       find (fun c => String.eqb (Schema.id c) id) (components (page s)) = Some c /\
       sent (step (ClickRow id) s) = Explain id (query (page s)) :: sent s /\
       explainCalls (step (ClickRow id) s) =
         explainCalls s ++
           [{| componentId := id; component := c; askedQuery := query (page s) |}]) /\
  (forall s n r p,
     explainCalls s !! n = Some p ->
     explanations (page (step (ExplainSettles n r) s)) !! componentId p =
       Some (match r with
             | Fulfilled _ => correctedExplanation (component p) (askedQuery p)
             | Rejected _ => fallbackExplanation (component p) (askedQuery p)
             end) /\
     (forall k, k <> componentId p ->
        explanations (page (step (ExplainSettles n r) s)) !! k
          = explanations (page s) !! k) /\
     explainCalls (step (ExplainSettles n r) s) = delete n (explainCalls s)) /\
  (forall s i j r1 r2 p1 p2,
     (i < j)%nat ->
     explainCalls s !! i = Some p1 -> explainCalls s !! j = Some p2 ->
     componentId p1 <> componentId p2 ->
     let first := step (ExplainSettles (j - 1) r2) (step (ExplainSettles i r1) s) in
     let second := step (ExplainSettles i r1) (step (ExplainSettles j r2) s) in
     explanations (page first) = explanations (page second) /\
     explanations (page first) !! componentId p1 =
       Some (match r1 with
             | Fulfilled _ => correctedExplanation (component p1) (askedQuery p1)
             | Rejected _ => fallbackExplanation (component p1) (askedQuery p1)
             end) /\
     explanations (page first) !! componentId p2 =
       Some (match r2 with
             | Fulfilled _ => correctedExplanation (component p2) (askedQuery p2)
             | Rejected _ => fallbackExplanation (component p2) (askedQuery p2)
             end)) /\
  (forall query0 events k v,
     explanations (page (run events (boot query0))) !! k = Some v ->
     attributed query0 events k v).
Proof.
  split; [|split; [|split]].
  - intros s id Hasks. pose proof (clickRow_handle id s) as Hclick.
    rewrite Hasks in Hclick. destruct Hclick as (c & t & Hfind & _ & Hh).
    exists c. split; [exact Hfind|].
    unfold step. rewrite remount_sent, remount_explainCalls, Hh. split; reflexivity.
  - intros s n r p Hp. destruct (explainSettles_step s n r p Hp) as (-> & ->).
    split; [apply lookup_insert_eq|]. split; [|reflexivity].
    intros k Hk. now rewrite lookup_insert_ne.
  - intros s i j r1 r2 p1 p2 Hij H1 H2 Hne first second.
    destruct (explainSettles_step s i r1 p1 H1) as (Ea & Ca).
    destruct (explainSettles_step s j r2 p2 H2) as (Eb & Cb).
    assert (explainCalls (step (ExplainSettles i r1) s) !! (j - 1)%nat = Some p2) as H2'.
    { rewrite Ca, list_lookup_delete_ge by lia.
      replace (S (j - 1)) with j by lia. exact H2. }
    assert (explainCalls (step (ExplainSettles j r2) s) !! i = Some p1) as H1'.
    { rewrite Cb, list_lookup_delete_lt by lia. exact H1. }
    destruct (explainSettles_step _ (j - 1)%nat r2 p2 H2') as (Efirst & _).
    destruct (explainSettles_step _ i r1 p1 H1') as (Esecond & _).
    unfold first, second. rewrite Efirst, Esecond, Ea, Eb.
    split; [now apply insert_insert_ne|].
    split; [rewrite lookup_insert_ne by congruence|]; apply lookup_insert_eq.
  - intros query0 events. exact (proj2 (run_wellAttributed query0 events)).
Qed.

(** C2 (amended): an entry of the explanation cache exists only for an
    identifier an explanation was requested for, and holds the text made
    from the component that was listed under that identifier, and from the
    query, when the request was sent.  Nothing but the settling of an
    explanation request changes the cache: submitting a new query, retrying
    and the arrival of search results leave every entry in place, and a
    response that arrives after the query or the result set has changed is
    stored like any other, under the identifier it was requested for. *)
Theorem explanations_outlive_result_set :
  (forall e s, aside e -> explanations (page (step e s)) = explanations (page s)) /\
  (forall id s, explanations (page (step (ClickRow id) s)) = explanations (page s)) /\
  (forall s n r p,
     explainCalls s !! n = Some p ->
     exists text,
       JS.truthyStr text = true /\
       (text = correctedExplanation (component p) (askedQuery p) \/
        text = fallbackExplanation (component p) (askedQuery p)) /\
       explanations (page (step (ExplainSettles n r) s))
         = <[componentId p := text]> (explanations (page s))) /\
  (forall query0 events k v,
     explanations (page (run events (boot query0))) !! k = Some v ->
     exists before after c,
       events = before ++ ClickRow k :: after /\
       asks k (run before (boot query0)) = true /\
       find (fun c => String.eqb (Schema.id c) k)
            (components (page (run before (boot query0)))) = Some c /\
       In (Explain k (query (page (run before (boot query0)))))
          (sent (run events (boot query0))) /\
       (v = correctedExplanation c (query (page (run before (boot query0)))) \/
        v = fallbackExplanation c (query (page (run before (boot query0)))))).
Proof.
  split; [|split; [|split]].
  - intros e s He. unfold step. rewrite remount_page.
    now destruct (aside_handle e s He) as (-> & _).
  - intros id s. unfold step. rewrite remount_page.
    pose proof (clickRow_handle id s) as Hc. destruct (asks id s).
    + destruct Hc as (c & t & _ & _ & ->). reflexivity.
    + destruct Hc as (t & ->). reflexivity.
  - intros s n r p Hp.
    destruct (explainSettles_explanations s n r p Hp) as (text & Ht & Hv & He). eauto.
  - intros query0 events k v Hk.
    destruct (proj2 (run_wellAttributed query0 events) k v Hk)
      as (p & (before & after & Hev & Hasks & Hfind & Hq) & <- & Hsent & Hv).
    exists before, after, (component p). rewrite <- Hq. auto.
Qed.

Lemma filter_delete_other {A} (P : A -> Prop) `{!forall x, Decision (P x)}
    (l : list A) : forall n x,
  l !! n = Some x -> ~ P x -> filter P (delete n l) = filter P l.
Proof.
  induction l as [|y l IH]; intros [|n] x Hx Hnot; simpl in *; try discriminate.
  - injection Hx as ->. now rewrite filter_cons_False.
  - rewrite !filter_cons. now rewrite (IH n x).
Qed.


Lemma isExplainFor_eq id id' q : isExplainFor id (Explain id' q) = true <-> id' = id.
Proof. simpl. apply String.eqb_eq. Qed.

(** The effect of one event on the requests for [id], on the calls for [id]
    that are suspended, and on the entry of [id]: either the event is a
    click on the row of [id] that asks, or no request for [id] is sent. *)
Lemma step_effect id e s :
  (e = ClickRow id /\ asks id s = true /\
   explainRequests id (step e s) = S (explainRequests id s) /\
   outstanding id (step e s) = S (outstanding id s) /\
   cached id (step e s) = cached id s)
  \/
  ((e = ClickRow id -> asks id s = false) /\
   explainRequests id (step e s) = explainRequests id s /\
   (cached id s = true -> cached id (step e s) = true) /\
   (cached id (step e s) = true \/
    (cached id (step e s) = cached id s /\ outstanding id (step e s) = outstanding id s))).
Proof.
  unfold step, explainRequests, outstanding, cached.
  rewrite remount_page, remount_sent, remount_explainCalls.
  destruct e as [q| |f|id'|n r|n r].
  1-3, 5: right; split; [discriminate|];
    match goal with |- context [handle ?e ?s0] =>
      destruct (aside_handle e s0 I) as (-> & -> & Hr) end;
    split; [apply Hr|]; auto.
  - pose proof (clickRow_handle id' s) as Hc.
    destruct (asks id' s) eqn:Hasks.
    + destruct Hc as (c & t & _ & _ & ->). simpl.
      destruct (decide (id' = id)) as [->|Hne].
      * left. split; [reflexivity|]. split; [assumption|].
        rewrite filter_cons_True by now apply isExplainFor_eq.
        rewrite filter_app, length_app. simpl.
        rewrite filter_cons_True by reflexivity. simpl.
        repeat split; lia.
      * right. split; [congruence|].
        rewrite filter_cons_False by (rewrite isExplainFor_eq; congruence).
        split; [reflexivity|]. split; [auto|]. right. split; [reflexivity|].
        rewrite filter_app, length_app. simpl.
        rewrite filter_cons_False by (simpl; congruence). simpl. lia.
    + destruct Hc as (t & ->). simpl. right.
      split; [intros [= ->]; assumption|]. auto.
  - right. split; [discriminate|].
    pose proof (explainSettles_handle n r s) as Hs.
    destruct (explainCalls s !! n) as [p|] eqn:Hp; rewrite Hs; [|auto].
    simpl. split; [reflexivity|].
    destruct (decide (componentId p = id)) as [<-|Hne].
    + rewrite lookup_insert_eq. simpl.
      assert (JS.truthyStr
                match r with
                | Fulfilled _ => correctedExplanation (component p) (askedQuery p)
                | Rejected _ => fallbackExplanation (component p) (askedQuery p)
                end = true) as -> by (destruct r; reflexivity).
      auto.
    + rewrite lookup_insert_ne by assumption.
      split; [auto|]. right. split; [reflexivity|].
      now rewrite (filter_delete_other _ _ n p Hp).
Qed.




End Explanations.

Import Api SearchResults ComponentTable App.



(** C2 as stated fails: the first regulator is opened, a new query
    replaces the result set by the timer, and then the explanation arrives.
    It is stored: the cache holds an entry for identifier 1, written for the
    old query, while the result set holds identifier 3 only. *)
Lemma stale_explanation_is_stored :
  let s := run [ClickRow "1"; SubmitSearch "timer";
                RecommendSettles 0 (Fulfilled Sample.timers);
                ExplainSettles 0 (Fulfilled Sample.explained)] Sample.showing in
  query (page s) = "timer" /\
  map Schema.id (components (page s)) = ["3"] /\
  ~ In "1" (map Schema.id (components (page s))) /\
  explanations (page s) !! "1" =
    Some "The LM7805 from Texas Instruments is recommended as a voltage regulator component that matches your query '5V regulator'.".
Proof.
  vm_compute. repeat split; try reflexivity.
  intros [Heq|[]]. discriminate Heq.
Qed.

(** The same when the explanation arrives first: the new result set does
    not clear it. *)
Lemma explanation_survives_new_search :
  let s := run [ClickRow "1"; ExplainSettles 0 (Fulfilled Sample.explained);
                SubmitSearch "timer";
                RecommendSettles 0 (Fulfilled Sample.timers)] Sample.showing in
  map Schema.id (components (page s)) = ["3"] /\
  explanations (page s) !! "1" =
    Some "The LM7805 from Texas Instruments is recommended as a voltage regulator component that matches your query '5V regulator'.".
Proof. vm_compute. repeat split; reflexivity. Qed.

(** The first regulator explained, then a search for timers: the entry
    is still there, and it goes back to the click on its row. *)
Lemma explanations_outlive_result_set_witness :
  let events := [RecommendSettles 0 (Fulfilled Sample.regulators); ClickRow "1";
                 ExplainSettles 0 (Fulfilled Sample.explained);
                 SubmitSearch "timer"] in
  let s := run [ClickRow "1"; ExplainSettles 0 (Fulfilled Sample.explained)]
             Sample.showing in
  explanations (page (step (SubmitSearch "timer") s)) = explanations (page s) /\
  exists before after c,
    events = before ++ ClickRow "1" :: after /\
    asks "1" (run before (boot "5V regulator")) = true /\
    find (fun c => String.eqb (Schema.id c) "1")
         (components (page (run before (boot "5V regulator")))) = Some c /\
    In (Explain "1" (query (page (run before (boot "5V regulator")))))
       (sent (run events (boot "5V regulator"))) /\
    ("The LM7805 from Texas Instruments is recommended as a voltage regulator component that matches your query '5V regulator'."
       = correctedExplanation c (query (page (run before (boot "5V regulator")))) \/
     "The LM7805 from Texas Instruments is recommended as a voltage regulator component that matches your query '5V regulator'."
       = fallbackExplanation c (query (page (run before (boot "5V regulator"))))).
Proof.
  intros events s. split.
  - exact (proj1 explanations_outlive_result_set (SubmitSearch "timer") s I).
  - refine (proj2 (proj2 (proj2 explanations_outlive_result_set))
              "5V regulator" events "1" _ _).
    vm_compute. reflexivity.
Defined.

(** Two rows opened, and the answer about the LM317 settles the call of the
    LM7805: the text goes under the identifier of the call, and it is the
    text of the LM7805; the entry of the other row is not touched. *)
Lemma explanation_attributed_to_request_witness :
  let s := run [ClickRow "2"; ClickRow "1"] Sample.showing in
  let s' := step (ExplainSettles 1 (Fulfilled Sample.explained)) s in
  explanations (page s') !! "1" =
    Some "The LM7805 from Texas Instruments is recommended as a voltage regulator component that matches your query '5V regulator'." /\
  explanations (page s') !! "2" = explanations (page s) !! "2" /\
  attributed "5V regulator"
    [RecommendSettles 0 (Fulfilled Sample.regulators); ClickRow "2"; ClickRow "1";
     ExplainSettles 1 (Fulfilled Sample.explained)]
    "1"
    "The LM7805 from Texas Instruments is recommended as a voltage regulator component that matches your query '5V regulator'.".
Proof.
  intros s s'.
  assert (explainCalls s !! 1%nat =
          Some {| componentId := "1";
                  component := Sample.answered "1" "LM7805" "Texas Instruments"
                                 "Voltage Regulator"
                                 (Some (191 # 2)) (Some (369 # 4)) (Some (5 # 4));
                  askedQuery := "5V regulator" |}) as Hcall
    by (vm_compute; reflexivity).
  destruct (proj1 (proj2 explanation_attributed_to_request) s 1%nat
              (Fulfilled Sample.explained) _ Hcall) as (Hown & Hothers & _).
  split; [exact Hown|]. split; [apply Hothers; discriminate|].
  apply (proj2 (proj2 (proj2 explanation_attributed_to_request))).
  vm_compute. reflexivity.
Defined.


(** A query made of two software terms, and an answer whose best score is
    12.5. *)
Lemma search_rejected_without_failure_witness :
  searchComponents_begin "React JavaScript" (page Sample.showing)
    = ({| query := "5V regulator"; components := []; isLoading := false;
          error := Some (blockedMessage "React JavaScript");
          explanations := ∅ |}, None) /\
  render (setError (Some (lowRelevanceMessage "banana"))
            (setComponents [] (page Sample.showing))) = ErrorPanel.
Proof.
  destruct (search_rejected_without_failure "React JavaScript" (page Sample.showing))
    as [Hblocked _].
  destruct (search_rejected_without_failure "banana" (page Sample.showing))
    as [_ Hlow].
  split.
  - apply Hblocked. vm_compute. repeat constructor; simpl; tauto.
  - refine (proj2 (proj2 (Hlow Sample.offTopic _ eq_refl _ _))).
    + discriminate.
    + repeat constructor; vm_compute; reflexivity.
Defined.


(** * Further properties *)

(** ** The table *)

Section TableRows.

Import TableView.

(** Two consecutive toggles of a row give back the table state, whatever
    the explanations are at either click, and at most one of the two calls
    [onExplain]: the one that opens the row. *)
Lemma toggleRow_twice (onExplain : bool) (explanations explanations' : gmap string string)
    (id : string) (t : TableState) :
  let first := toggleRow onExplain explanations id t in
  let second := toggleRow onExplain explanations' id first.1 in
  second.1 = t /\
  (id ∈ expandedRows t -> first.2 = None) /\
  (id ∉ expandedRows t -> second.2 = None).
Proof.
  destruct t as [f d rows]. unfold toggleRow. simpl.
  destruct (decide (id ∈ rows)) as [Hin|Hin]; simpl.
  - destruct (decide (id ∈ rows ∖ {[id]})) as [Hin'|Hin'].
    { apply elem_of_difference in Hin' as [_ Hin']. contradict Hin'.
      now apply elem_of_singleton. }
    simpl.
    split; [|split; [reflexivity|contradiction]].
    f_equal. apply set_eq. intros x.
    rewrite elem_of_union, elem_of_difference, elem_of_singleton.
    destruct (decide (x = id)) as [->|]; tauto.
  - destruct (decide (id ∈ rows ∪ {[id]})) as [Hin'|Hin'].
    2: { contradict Hin'. apply elem_of_union. right. now apply elem_of_singleton. }
    simpl.
    split; [|split; [contradiction|reflexivity]].
    f_equal. apply set_eq. intros x.
    rewrite elem_of_difference, elem_of_union, elem_of_singleton.
    destruct (decide (x = id)) as [->|]; tauto.
Qed.

(** After a click on a header that header carries the sort icon and no
    other header does; the icon points down unless the click flipped a
    descending sort on that column. *)
Lemma SortIcon_after_click (field other : SortField) (t : TableState) :
  SortIcon (handleSort field t) field =
    Some (if (SortField_eqb (sortField t) field &&
              match sortDirection t with desc => true | asc => false end)%bool
          then ChevronUp else ChevronDown) /\
  (other <> field -> SortIcon (handleSort field t) other = None).
Proof.
  destruct t as [f d rows]. unfold SortIcon, handleSort. simpl.
  split.
  - destruct f, field, d; reflexivity.
  - intros Hne. destruct f, field, other, d; simpl; congruence.
Qed.

End TableRows.

(** ** More on the sorted view *)

Lemma StronglySorted_snoc {A} (R : A -> A -> Prop) l x :
  StronglySorted R l -> Forall (fun y => R y x) l -> StronglySorted R (l ++ [x]).
Proof.
  induction 1 as [|y l Hs IH Hy]; intros Hx; simpl.
  - repeat constructor.
  - apply List.Forall_cons_iff in Hx as [Hyx Hx]. constructor; [auto|].
    apply List.Forall_app. split; [assumption|]. repeat constructor. assumption.
Qed.

Lemma StronglySorted_rev {A} (R : A -> A -> Prop) l :
  StronglySorted R l -> StronglySorted (fun x y => R y x) (rev l).
Proof.
  induction 1 as [|y l Hs IH Hy]; simpl; [constructor|].
  apply StronglySorted_snoc.
  - exact IH.
  - apply List.Forall_rev. exact Hy.
Qed.

Lemma StronglySorted_weaken {A} (R R' : A -> A -> Prop) l :
  (forall x y, R x y -> R' x y) -> StronglySorted R l -> StronglySorted R' l.
Proof.
  intros Himp. induction 1 as [|y l Hs IH Hy]; constructor; [exact IH|].
  eapply List.Forall_impl; [|exact Hy]. intros z. apply Himp.
Qed.

(** Two arrangements of the same elements in the order [R] are the same
    list when [R] ranks no two of the elements both ways. *)
Lemma StronglySorted_unique {A} (R : A -> A -> Prop) l1 : forall l2,
  Permutation l1 l2 -> StronglySorted R l1 -> StronglySorted R l2 ->
  (forall a b, In a l1 -> In b l1 -> R a b -> R b a -> a = b) ->
  l1 = l2.
Proof.
  induction l1 as [|a l1 IH]; intros l2 Hp Hs1 Hs2 Hanti.
  - apply Permutation_nil in Hp. now subst.
  - destruct l2 as [|b l2]; [apply Permutation_sym, Permutation_nil in Hp; discriminate|].
    apply StronglySorted_inv in Hs1 as [Hs1 Ha].
    apply StronglySorted_inv in Hs2 as [Hs2 Hb].
    assert (a = b) as <-.
    { assert (In a (b :: l2)) as Hin_a by (eapply Permutation_in; [exact Hp|now left]).
      assert (In b (a :: l1)) as Hin_b
        by (eapply Permutation_in; [apply Permutation_sym; exact Hp|now left]).
      destruct Hin_a as [->|Hin_a]; [reflexivity|].
      destruct Hin_b as [->|Hin_b]; [reflexivity|].
      rewrite List.Forall_forall in Ha, Hb.
      apply Hanti; [now left|now right|auto|auto]. }
    f_equal. apply IH; auto.
    + eapply Permutation_cons_inv; exact Hp.
    + intros x y Hx Hy. apply Hanti; now right.
Qed.

Section SortedViews.

Context {H : Host} {HL : HostLaws H}.

Import ComponentTable.

Ltac fields f d :=
  destruct f, d; unfold notAfter, compareFn, prop; simpl;
  repeat match goal with
         | |- context [fmap _ ?o] => destruct o; simpl
         end;
  rewrite ?scaled_asc_le, ?scaled_desc_le, ?scaled_asc_lt, ?scaled_desc_lt.

Ltac host_props :=
  repeat match goal with
         | x : Q |- _ =>
             lazymatch goal with
             | _ : 0 < localeCompare (numberToString x) "" |- _ => fail
             | _ => pose proof (numberToString_after_empty x);
                    pose proof (empty_before_number x)
             end
         end;
  pose proof (localeCompare_refl "").

Local Abbreviation opposite d := (match d with asc => desc | desc => asc end).

Lemma compareFn_opposite f d a b :
  notAfter (compareFn f d) b a -> notAfter (compareFn f (opposite d)) a b.
Proof.
  fields f d; host_props; intros Hba;
    first [ lra | lia | apply localeCompare_ge; lia
          | apply localeCompare_ge in Hba; lia ].
Qed.

Lemma compareFn_tie f d a b :
  notAfter (compareFn f d) a b -> notAfter (compareFn f d) b a ->
  (compareFn f d a b == 0)%Q.
Proof.
  intros Hab Hba. apply compareFn_opposite in Hba.
  revert Hab Hba. unfold notAfter, compareFn.
  destruct (default (VStr "") (prop a f)), (default (VStr "") (prop b f)), d;
    simpl;
    try match goal with |- context [inject_Z ?z] => generalize (inject_Z z); intros q end;
    intros; lra.
Qed.

Lemma compareFn_self f d a : (compareFn f d a a == 0)%Q.
Proof.
  unfold compareFn. destruct (default (VStr "") (prop a f)), d; simpl;
    rewrite ?localeCompare_refl; try reflexivity; ring.
Qed.

(** When no component carries the sort field, as for the score columns
    and the part number of rows that arrive with snake-case keys only, the
    view is the list as it was received, in either direction. *)
Lemma sortedComponents_missing_field (components : list Component) (t : TableState) :
  Forall (fun c => prop c (sortField t) = None) components ->
  sortedComponents components t = components.
Proof.
  intros Hnone. unfold sortedComponents. apply sort_sorted_id.
  induction Hnone as [|c cs Hc Hcs IH]; constructor; [exact IH|].
  apply List.Forall_forall. intros c' Hin.
  rewrite List.Forall_forall in Hcs. specialize (Hcs c' Hin).
  unfold notAfter, compareFn. rewrite Hc, Hcs. simpl.
  rewrite localeCompare_refl. destruct (sortDirection t); unfold Qle; simpl; lia.
Qed.

(** A click on the header of the sort column turns the view upside down
    when no two rows tie on that column. *)
Theorem header_click_reverses (components : list Component) (t : TableState) :
  (forall i j a b, i <> j -> components !! i = Some a -> components !! j = Some b ->
     ~ (compareFn (sortField t) (sortDirection t) a b == 0)%Q) ->
  sortedComponents components (handleSort (sortField t) t)
    = rev (sortedComponents components t).
Proof.
  intros Hties. destruct t as [f d rows]. simpl in Hties.
  unfold sortedComponents, handleSort. simpl.
  replace (SortField_eqb f f) with true by (destruct f; reflexivity). simpl.
  set (up := compareFn f d). set (down := compareFn f (opposite d)).
  assert (forall x y, after (down x y) = true -> notAfter down y x) as Htotal
    by (intros x y; apply compareFn_total).
  assert (forall x y z, notAfter down x y -> notAfter down y z -> notAfter down x z)
    as Htrans by (intros x y z; apply compareFn_trans).
  assert (forall x y, after (up x y) = true -> notAfter up y x) as Htotal'
    by (intros x y; apply compareFn_total).
  assert (forall x y z, notAfter up x y -> notAfter up y z -> notAfter up x z)
    as Htrans' by (intros x y z; apply compareFn_trans).
  apply (StronglySorted_unique (notAfter down)).
  - etransitivity; [apply Permutation_sym, sort_Permutation|].
    etransitivity; [apply (sort_Permutation up)|apply Permutation_rev].
  - apply sort_StronglySorted; assumption.
  - eapply StronglySorted_weaken;
      [|apply StronglySorted_rev, (sort_StronglySorted up); assumption].
    intros x y Hyx. apply compareFn_opposite. exact Hyx.
  - intros a b Ha Hb Hab Hba.
    assert (In a components) as Ha'
      by (eapply Permutation_in; [apply Permutation_sym, sort_Permutation|exact Ha]).
    assert (In b components) as Hb'
      by (eapply Permutation_in; [apply Permutation_sym, sort_Permutation|exact Hb]).
    apply list_elem_of_In, list_elem_of_lookup in Ha' as [i Hi].
    apply list_elem_of_In, list_elem_of_lookup in Hb' as [j Hj].
    destruct (decide (i = j)) as [->|Hne]; [congruence|].
    exfalso. apply (Hties i j a b Hne Hi Hj).
    apply compareFn_opposite in Hab, Hba.
    replace (opposite (opposite d)) with d in Hab, Hba by (destruct d; reflexivity).
    apply compareFn_tie; assumption.
Qed.

End SortedViews.

(** ** Query validation *)

Lemma lowerChar_lowerChar c : JS.lowerChar (JS.lowerChar c) = JS.lowerChar c.
Proof. destruct c as [[] [] [] [] [] [] [] []]; reflexivity. Qed.

Lemma isSpace_lowerChar c : JS.isSpace (JS.lowerChar c) = JS.isSpace c.
Proof. destruct c as [[] [] [] [] [] [] [] []]; reflexivity. Qed.

Lemma toLowerCase_toLowerCase s : JS.toLowerCase (JS.toLowerCase s) = JS.toLowerCase s.
Proof. induction s as [|c s IH]; simpl; [reflexivity|]. now rewrite lowerChar_lowerChar, IH. Qed.

Lemma trimStart_toLowerCase s :
  JS.trimStart (JS.toLowerCase s) = JS.toLowerCase (JS.trimStart s).
Proof.
  induction s as [|c s IH]; simpl; [reflexivity|].
  rewrite isSpace_lowerChar. destruct (JS.isSpace c); [exact IH|reflexivity].
Qed.

Lemma trimEnd_toLowerCase s :
  JS.trimEnd (JS.toLowerCase s) = JS.toLowerCase (JS.trimEnd s).
Proof.
  induction s as [|c s IH]; simpl; [reflexivity|].
  rewrite IH, isSpace_lowerChar.
  destruct (JS.trimEnd s); simpl; [destruct (JS.isSpace c)|]; reflexivity.
Qed.

Lemma trim_toLowerCase s : JS.trim (JS.toLowerCase s) = JS.toLowerCase (JS.trim s).
Proof. unfold JS.trim. now rewrite trimStart_toLowerCase, trimEnd_toLowerCase. Qed.

Lemma trimStart_trimEnd s : JS.trimStart (JS.trimEnd s) = JS.trimEnd (JS.trimStart s).
Proof.
  induction s as [|c s IH]; [reflexivity|].
  cbn [JS.trimStart JS.trimEnd]. destruct (JS.isSpace c) eqn:Hc.
  - rewrite <- IH. destruct (JS.trimEnd s); cbn [JS.trimStart]; now rewrite ?Hc.
  - cbn [JS.trimEnd]. destruct (JS.trimEnd s); cbn [JS.trimStart]; now rewrite Hc.
Qed.

Lemma trimStart_padding pre s :
  JSText.allSpaces pre = true -> JS.trimStart (pre +:+ s) = JS.trimStart s.
Proof.
  induction pre as [|c pre IH]; simpl; [reflexivity|].
  intros Hp. apply andb_true_iff in Hp as [-> Hp]. auto.
Qed.

Lemma trimEnd_allSpaces post : JSText.allSpaces post = true -> JS.trimEnd post = "".
Proof.
  induction post as [|c post IH]; simpl; [reflexivity|].
  intros Hp. apply andb_true_iff in Hp as [-> Hp]. now rewrite IH.
Qed.

Lemma trimEnd_padding s post :
  JSText.allSpaces post = true -> JS.trimEnd (s +:+ post) = JS.trimEnd s.
Proof.
  intros Hp. induction s as [|c s IH]; simpl; [now apply trimEnd_allSpaces|].
  now rewrite IH.
Qed.

Lemma trim_padding pre s post :
  JSText.allSpaces pre = true -> JSText.allSpaces post = true ->
  JS.trim (pre +:+ s +:+ post) = JS.trim s.
Proof.
  intros Hpre Hpost. unfold JS.trim.
  rewrite <- !trimStart_trimEnd, <- append_assoc, trimEnd_padding by assumption.
  rewrite !trimStart_trimEnd. now rewrite trimStart_padding.
Qed.

Lemma trim_allSpaces s : JSText.allSpaces s = true -> JS.trim s = "".
Proof.
  intros Hs. unfold JS.trim. rewrite <- trimStart_trimEnd.
  now rewrite trimEnd_allSpaces.
Qed.

Lemma includes_iff xs w : JS.includes xs w = true <-> In w xs.
Proof.
  unfold JS.includes. rewrite existsb_exists. split.
  - intros (x & Hin & Heq). apply String.eqb_eq in Heq. now subst.
  - intros Hin. exists w. split; [assumption|apply String.eqb_refl].
Qed.

Lemma forallb_false {A} (f : A -> bool) l :
  forallb f l = false <-> exists x, In x l /\ f x = false.
Proof.
  induction l as [|y l IH]; simpl.
  - split; [discriminate|intros (x & [] & _)].
  - rewrite andb_false_iff, IH. split.
    + intros [Hy|(x & Hin & Hx)]; eauto.
    + intros (x & [->|Hin] & Hx); eauto.
Qed.

(** The validator turns a query down in two cases only: nothing is left
    of it but one to three dots, or nothing at all, once it is trimmed; or
    every one of its words is on the list.  One word that is not on the list
    gets the query through. *)
Theorem isValidElectronicsQuery_iff (query : string) :
  let trimmedQuery := JS.toLowerCase (JS.trim query) in
  isValidElectronicsQuery query = true <->
  ~ In trimmedQuery [""; "."; ".."; "..."] /\
  exists word, In word (JS.split_ws trimmedQuery) /\ ~ In word obviouslyBadTerms.
Proof.
  intros t. unfold isValidElectronicsQuery. fold t.
  assert (Nat.ltb (String.length t) 1 = String.eqb t "") as -> by (destruct t; reflexivity).
  destruct (String.eqb_spec t "") as [E0|E0]; simpl.
  { split; [discriminate|]. intros [Hn _]. contradict Hn. now left. }
  destruct (String.eqb_spec t ".") as [E1|E1]; simpl.
  { split; [discriminate|]. intros [Hn _]. contradict Hn. right. now left. }
  destruct (String.eqb_spec t "..") as [E2|E2]; simpl.
  { split; [discriminate|]. intros [Hn _]. contradict Hn. right. right. now left. }
  destruct (String.eqb_spec t "...") as [E3|E3]; simpl.
  { split; [discriminate|]. intros [Hn _]. contradict Hn. right. right. right. now left. }
  assert (Nat.ltb 0 (length (JS.split_ws t)) = true) as ->.
  { pose proof (splitSpaces_nonempty t false) as Hne. unfold JS.split_ws.
    destruct (JS.splitSpaces false t); [contradiction|reflexivity]. }
  cbn [andb]. rewrite negb_true_iff, forallb_false. split.
  - intros (w & Hin & Hw). split.
    + intros [|[|[|[|[]]]]]; congruence.
    + exists w. split; [assumption|]. intros Hbad.
      apply (proj2 (includes_iff obviouslyBadTerms w)) in Hbad. congruence.
  - intros (_ & w & Hin & Hw). exists w. split; [assumption|].
    destruct (JS.includes obviouslyBadTerms w) eqn:Hi; [|reflexivity].
    apply (proj1 (includes_iff obviouslyBadTerms w)) in Hi. contradiction.
Qed.

(** White space around a query and the case of its letters have no part in
    the verdict. *)
Theorem validation_ignores_case_and_padding (query query' pre post : string) :
  JSText.allSpaces pre = true -> JSText.allSpaces post = true ->
  JS.toLowerCase query' = JS.toLowerCase query ->
  isValidElectronicsQuery (pre +:+ query' +:+ post) = isValidElectronicsQuery query.
Proof.
  intros Hpre Hpost Hcase. unfold isValidElectronicsQuery.
  rewrite trim_padding by assumption.
  now rewrite <- !trim_toLowerCase, Hcase.
Qed.

Lemma blockedMessage_truthy q : JS.truthyStr (blockedMessage q) = true.
Proof. reflexivity. Qed.

(** A query of white space only is not the empty query.  The page opened
    at an address that carries one does search for it: the validator turns
    it down and the user is told that it looks like a software term.  No
    request is sent. *)
Theorem blank_query_blocked (query : string) :
  query <> "" -> JSText.allSpaces query = true ->
  sent (boot query) = [] /\
  recommendCalls (boot query) = [] /\
  error (page (boot query)) = Some (blockedMessage query) /\
  render (page (boot query)) = ErrorPanel.
Proof.
  intros Hne Hblank.
  assert (isValidElectronicsQuery query = false) as Hinvalid.
  { unfold isValidElectronicsQuery. now rewrite trim_allSpaces. }
  unfold boot, queryEffect. cbn [SearchResults.query].
  rewrite truthyStr_nonempty by assumption.
  unfold searchComponents_begin. rewrite Hinvalid. cbn.
  repeat split; reflexivity.
Qed.

Lemma trimStart_trimStart s : JS.trimStart (JS.trimStart s) = JS.trimStart s.
Proof.
  induction s as [|c s IH]; [reflexivity|]. cbn [JS.trimStart].
  destruct (JS.isSpace c) eqn:Hc; [exact IH|]. cbn [JS.trimStart]. now rewrite Hc.
Qed.

Lemma trimEnd_trimEnd s : JS.trimEnd (JS.trimEnd s) = JS.trimEnd s.
Proof.
  induction s as [|c s IH]; [reflexivity|]. cbn [JS.trimEnd].
  destruct (JS.trimEnd s) as [|c' t] eqn:Ht.
  - destruct (JS.isSpace c) eqn:Hc; [reflexivity|]. cbn [JS.trimEnd]. now rewrite Hc.
  - cbn [JS.trimEnd]. cbn [JS.trimEnd] in IH. now rewrite IH.
Qed.

Lemma trim_trim s : JS.trim (JS.trim s) = JS.trim s.
Proof.
  unfold JS.trim. rewrite trimStart_trimEnd, trimStart_trimStart.
  now rewrite trimEnd_trimEnd.
Qed.

Lemma truthyStr_false s : JS.truthyStr s = false -> s = "".
Proof. unfold JS.truthyStr. rewrite negb_false_iff. apply String.eqb_eq. Qed.

Lemma truthyStr_true s : JS.truthyStr s = true -> s <> "".
Proof. unfold JS.truthyStr. rewrite negb_true_iff. apply String.eqb_neq. Qed.

(** The search bar hands the page nothing for a blank entry; what it does
    hand over is not empty, has no white space left around it, and is
    judged by the validator as the entry itself is.  While the submit
    button is disabled, nothing is handed over. *)
Theorem handleSubmit_trims (entry : string) :
  match SearchBar.handleSubmit entry with
  | Some query =>
      query <> "" /\ JS.trim query = query /\
      isValidElectronicsQuery query = isValidElectronicsQuery entry /\
      SearchBar.disabled false entry = false
  | None =>
      JS.trim entry = "" /\ forall isLoading, SearchBar.disabled isLoading entry = true
  end.
Proof.
  unfold SearchBar.handleSubmit, SearchBar.disabled.
  destruct (JS.truthyStr (JS.trim entry)) eqn:Ht.
  - split; [now apply truthyStr_true|]. split; [apply trim_trim|].
    split; [|reflexivity]. unfold isValidElectronicsQuery. now rewrite trim_trim.
  - split; [now apply truthyStr_false|]. intros isLoading. now destruct isLoading.
Qed.

(** ** What a search ends in *)

Lemma fold_Qmax_In xs : forall x, In (fold_left Qmax xs x) (x :: xs).
Proof.
  induction xs as [|y xs IH]; intros x; simpl; [now left|].
  destruct (IH (Qmax x y)) as [Heq|Hin]; [|now right; right].
  rewrite <- Heq. unfold Qmax. destruct (Qle_bool x y); [right|]; now left.
Qed.

Lemma maxScore_attained cs : cs <> [] -> exists c, In c cs /\ scoreOf c = maxScore cs.
Proof.
  destruct cs as [|c cs]; [contradiction|]. intros _. unfold maxScore.
  cbn [map]. pose proof (fold_Qmax_In (map scoreOf cs) (scoreOf c)) as Hin.
  change (In (fold_left Qmax (map scoreOf cs) (scoreOf c)) (map scoreOf (c :: cs))) in Hin.
  apply in_map_iff in Hin as (c' & Heq & Hin). eauto.
Qed.

Lemma Qltb_false x y : Qltb x y = false <-> (y <= x)%Q.
Proof. unfold Qltb. rewrite negb_false_iff. apply Qle_bool_iff. Qed.

Lemma relevant_iff cs :
  (Nat.ltb 0 (length cs) && Qltb (maxScore cs) 50)%bool = false <->
  cs = [] \/ exists c, In c cs /\ (50 <= scoreOf c)%Q.
Proof.
  destruct cs as [|c0 cs]; [simpl; tauto|].
  cbn [length Nat.ltb Nat.leb andb]. rewrite Qltb_false. split.
  - intros Hmax. right.
    destruct (maxScore_attained (c0 :: cs)) as (c & Hin & Heq); [discriminate|].
    exists c. split; [assumption|]. now rewrite Heq.
  - intros [|(c & Hin & Hc)]; [discriminate|].
    pose proof (maxScore_upper (c0 :: cs)) as Hup.
    rewrite List.Forall_forall in Hup. specialize (Hup c Hin). lra.
Qed.

(** The list of a fulfilled search is put on display exactly when one of
    its components has a match score of 50 or more; it is then displayed
    whole and in the order of the answer, with no error. *)
Theorem results_shown_iff_relevant (searchQuery : string)
    (response : Schema.RecommendResponse) (st : State) :
  isValidElectronicsQuery searchQuery = true ->
  let answered := default [] (Schema.components response) in
  exists st',
    (searchComponents (fun _ => Fulfilled response) searchQuery st).1 = Normal st' /\
    (render st' = Results <-> exists c, In c answered /\ (50 <= scoreOf c)%Q) /\
    (render st' = Results -> components st' = answered /\ error st' = None).
Proof.
  intros Hvalid answered. unfold searchComponents, searchComponents_begin.
  rewrite Hvalid. cbn [negb fst]. unfold searchComponents_resume, tryCatchFinally.
  cbn [await andThen]. eexists. split; [reflexivity|].
  unfold searchComponents_body. fold answered.
  pose proof (relevant_iff answered) as Hrel.
  destruct (Nat.ltb 0 (length answered) && Qltb (maxScore answered) 50)%bool.
  - unfold render. cbn. split; [split; [discriminate|]|discriminate].
    intros Hex. discriminate (proj2 Hrel (or_intror Hex)).
  - unfold render. cbn. destruct (proj1 Hrel eq_refl) as [->|Hex].
    + cbn. split; [split|].
      * destruct (JS.truthyStr (query st)); discriminate.
      * intros (c & [] & _).
      * destruct (JS.truthyStr (query st)); discriminate.
    + destruct answered as [|c0 cs]; [destruct Hex as (c & [] & _)|].
      cbn. split; [split; [intros _; exact Hex|reflexivity]|]. auto.
Qed.

(** A fulfilled search with no component, or with no list at all, leaves
    the page without an error: it says that nothing was found. *)
Theorem empty_answer_shows_no_results (searchQuery : string)
    (response : Schema.RecommendResponse) (st : State) :
  isValidElectronicsQuery searchQuery = true ->
  query st <> "" ->
  default [] (Schema.components response) = [] ->
  (searchComponents (fun _ => Fulfilled response) searchQuery st).1 =
    Normal {| query := query st; components := []; isLoading := false;
              error := None; explanations := explanations st |} /\
  render {| query := query st; components := []; isLoading := false;
            error := None; explanations := explanations st |} = NoResults.
Proof.
  intros Hvalid Hq Hempty. unfold searchComponents, searchComponents_begin.
  rewrite Hvalid. cbn [negb fst]. unfold searchComponents_resume, tryCatchFinally.
  cbn [await andThen]. unfold searchComponents_body. rewrite Hempty. cbn.
  split; [reflexivity|]. unfold render. cbn. now rewrite truthyStr_nonempty.
Qed.

(** "Try Again" on a query the validator turns down cannot get anywhere:
    no request is sent and the page shows the same message again. *)
Theorem retry_of_blocked_query (s : Sys) :
  render (page s) = ErrorPanel ->
  isValidElectronicsQuery (query (page s)) = false ->
  let s' := step ClickRetry s in
  sent s' = sent s /\ recommendCalls s' = recommendCalls s /\
  page s' = {| query := query (page s); components := []; isLoading := false;
               error := Some (blockedMessage (query (page s)));
               explanations := explanations (page s) |} /\
  render (page s') = ErrorPanel /\
  step ClickRetry s' = s'.
Proof.
  intros Hpanel Hinvalid s'.
  assert (forall u, render (page u) = ErrorPanel ->
            query (page u) = query (page s) ->
            step ClickRetry u =
            {| page := {| query := query (page s); components := []; isLoading := false;
                          error := Some (blockedMessage (query (page s)));
                          explanations := explanations (page u) |};
               table := ComponentTable.initial; recommendCalls := recommendCalls u;
               explainCalls := explainCalls u; sent := sent u |}) as Hstep.
  { intros u Hu Hq. unfold step, handle. rewrite Hu.
    unfold searchComponents_begin. rewrite Hq, Hinvalid. cbn [negb].
    unfold searchStarted, remount, tableMounted, render. cbn.
    unfold withTable, withPage, setIsLoading, setComponents, setError. cbn.
    now rewrite Hq. }
  unfold s'. rewrite (Hstep s Hpanel eq_refl). cbn.
  repeat split; try reflexivity.
  rewrite Hstep; reflexivity.
Qed.

(** ** What holds in every state of the page *)

Section Reachable.

Import TableView.

Lemma remount_recommendCalls s : recommendCalls (remount s) = recommendCalls s.
Proof. unfold remount. destruct (tableMounted (page s)); reflexivity. Qed.

(** A [searchComponents] call either sends the request of a valid query
    and raises the loading flag, or sends nothing and lowers it. *)
Lemma searchStarted_effect q st s (s' := searchStarted q (searchComponents_begin q st) s) :
  (isValidElectronicsQuery q = true /\ sent s' = Recommend q 20 :: sent s /\
   recommendCalls s' = recommendCalls s ++ [q] /\ isLoading (page s') = true) \/
  (sent s' = sent s /\ recommendCalls s' = recommendCalls s /\
   isLoading (page s') = false).
Proof.
  unfold s', searchComponents_begin.
  destruct (isValidElectronicsQuery q); cbn; [left|right]; auto.
Qed.

(** The effect of one event on the requests, on the searches in flight and
    on the loading flag. *)
Lemma step_search_effect e s (s' := step e s) :
  (exists q, isValidElectronicsQuery q = true /\ sent s' = Recommend q 20 :: sent s /\
     recommendCalls s' = recommendCalls s ++ [q] /\ isLoading (page s') = true) \/
  (exists id q, sent s' = Explain id q :: sent s /\
     recommendCalls s' = recommendCalls s /\ isLoading (page s') = isLoading (page s)) \/
  (sent s' = sent s /\
   ((recommendCalls s' = recommendCalls s /\ isLoading (page s') = isLoading (page s)) \/
    isLoading (page s') = false)).
Proof.
  unfold s', step. rewrite remount_sent, remount_recommendCalls, remount_page.
  destruct e as [q| |f|id|n r|n r].
  - unfold handle. destruct (String.eqb q (query (page s))); [right; right; auto|].
    unfold queryEffect. cbn [query setQuery].
    destruct (JS.truthyStr q).
    + destruct (searchStarted_effect q (setQuery q (page s)) s)
        as [(Hv & Hs & Hc & Hl)|(Hs & Hc & Hl)].
      * left. exists q. auto.
      * right; right. auto.
    + right; right. cbn. auto.
  - unfold handle. destruct (render (page s)); try solve [right; right; auto].
    destruct (searchStarted_effect (query (page s)) (page s) s)
      as [(Hv & Hs & Hc & Hl)|(Hs & Hc & Hl)].
    + left. eexists. eauto.
    + right; right. auto.
  - unfold handle. right; right. destruct (tableMounted (page s)); auto.
  - pose proof (clickRow_handle id s) as Hclick.
    destruct (asks id s).
    + destruct Hclick as (c & t & _ & _ & ->). cbn. right; left. eauto.
    + destruct Hclick as (t & ->). cbn. right; right. auto.
  - unfold handle. right; right. destruct (recommendCalls s !! n) as [q|]; [|auto].
    unfold searchComponents_resume, tryCatchFinally. cbn. auto.
  - pose proof (explainSettles_handle n r s) as Hsettle.
    destruct (explainCalls s !! n) as [p|]; rewrite Hsettle; right; right; auto.
Qed.

Lemma boot_search_effect q :
  (forall q' k, In (Recommend q' k) (sent (boot q)) ->
     k = 20 /\ isValidElectronicsQuery q' = true) /\
  (isLoading (page (boot q)) = true -> recommendCalls (boot q) <> []).
Proof.
  unfold boot, queryEffect. cbn [query].
  destruct (JS.truthyStr q); [|cbn; split; [tauto|discriminate]].
  match goal with |- context [searchStarted q (searchComponents_begin q ?st) ?s0] =>
    destruct (searchStarted_effect q st s0) as [(Hv & -> & -> & ->)|(-> & -> & ->)] end;
    cbn; split; try discriminate; try tauto.
  intros q' k [[= <- <-]|[]]. auto.
Qed.

(** No request is ever sent for a query the validator turns down, and
    every search asks for twenty components. *)
Theorem requests_are_validated (s : Sys) (searchQuery : string) (top_k : Z) :
  reachable s -> In (Recommend searchQuery top_k) (sent s) ->
  top_k = 20 /\ isValidElectronicsQuery searchQuery = true.
Proof.
  intros Hr. revert searchQuery top_k.
  apply (reachable_invariant (fun s => forall q k, In (Recommend q k) (sent s) ->
           k = 20 /\ isValidElectronicsQuery q = true)); [| |exact Hr]; clear s Hr.
  - intros q. apply boot_search_effect.
  - intros e s IH q k.
    destruct (step_search_effect e s)
      as [(q0 & Hv & -> & _)|[(id & q0 & -> & _)|(-> & _)]]; [| |apply IH].
    + intros [[= <- <-]|Hin]; [auto|now apply IH].
    + intros [[=]|Hin]. now apply IH.
Qed.

(** The spinner is never left turning: while the loading flag is up, a
    search request is in flight. *)
Theorem loading_has_request_in_flight (s : Sys) :
  reachable s -> isLoading (page s) = true -> recommendCalls s <> [].
Proof.
  intros Hr.
  apply (reachable_invariant (fun s => isLoading (page s) = true -> recommendCalls s <> []));
    [| |exact Hr]; clear s Hr.
  - intros q. apply boot_search_effect.
  - intros e s IH.
    destruct (step_search_effect e s)
      as [(q0 & _ & _ & -> & _)|[(id & q0 & _ & -> & ->)|(_ & [[-> ->]| ->])]];
      [intros _; now destruct (recommendCalls s)|exact IH|exact IH|discriminate].
Qed.

(** An open row that still says "Loading explanation..." has its request
    in flight: the row gets its text, the answer or the fallback, when that
    request settles. *)
Theorem loading_row_has_request_in_flight (s : Sys) (id : string) :
  reachable s ->
  isExpanded (table s) id = true ->
  loadingShown true (explanations (page s)) id = true ->
  (1 <= outstanding id s)%nat.
Proof.
  intros Hr. revert id.
  enough (forall id, id ∈ expandedRows (table s) ->
            cached id s = true \/ (1 <= outstanding id s)%nat) as Hinv.
  { intros id Hopen Hload. unfold isExpanded in Hopen.
    apply bool_decide_eq_true in Hopen.
    destruct (Hinv id Hopen) as [Hc|Ho]; [|exact Ho].
    unfold loadingShown, cached in *. rewrite Hc in Hload. discriminate. }
  apply (reachable_invariant (fun s => forall id, id ∈ expandedRows (table s) ->
           cached id s = true \/ (1 <= outstanding id s)%nat)); [| |exact Hr]; clear s Hr.
  - intros q id. unfold boot, queryEffect, searchComponents_begin. cbn [query].
    destruct (JS.truthyStr q); [destruct (negb (isValidElectronicsQuery q))|];
      cbn; intros Hin; now apply elem_of_empty in Hin.
  - intros e s IH id Hopen.
    assert (id ∈ expandedRows (table s) \/ (e = ClickRow id /\
              (cached id s = true \/ asks id s = true))) as Hwas.
    { revert Hopen. unfold step, remount.
      destruct (tableMounted (page (handle e s)));
        [|cbn; intros Hin; now apply elem_of_empty in Hin].
      destruct e as [q| |f|id'|n r|n r]; unfold handle.
      - destruct (String.eqb q (query (page s))); [auto|].
        unfold queryEffect, searchComponents_begin. cbn [query setQuery].
        destruct (JS.truthyStr q); [destruct (negb (isValidElectronicsQuery q))|];
          cbn; auto.
      - destruct (render (page s)); auto.
        unfold searchComponents_begin.
        destruct (negb (isValidElectronicsQuery (query (page s)))); cbn; auto.
      - destruct (tableMounted (page s)); cbn; auto.
        unfold handleSort. destruct (SortField_eqb _ _); cbn; auto.
      - unfold toggleRow.
        destruct (tableMounted (page s)) eqn:Hm; cbn [andb]; [|auto].
        destruct (displayed id' (page s)) eqn:Hd; cbn [andb]; [|auto].
        destruct (decide (id' ∈ expandedRows (table s))) as [Hin|Hin].
        + cbn. intros Hopen. left. now apply elem_of_difference in Hopen as [Hopen _].
        + assert (id ∈ expandedRows (table s) ∪ {[id']} ->
                  id ∈ expandedRows (table s) \/
                  ClickRow id' = ClickRow id /\ (cached id s = true \/ asks id s = true))
            as Hnew.
          { intros Hopen. apply elem_of_union in Hopen as [Hopen|Hopen]; [now left|].
            apply elem_of_singleton in Hopen as ->. right. split; [reflexivity|].
            unfold asks, cached. rewrite Hm, Hd, bool_decide_eq_false_2 by assumption.
            cbn. destruct (JS.truthyOptStr (explanations (page s) !! id')); auto. }
          destruct (JS.truthyOptStr (explanations (page s) !! id')); cbn; [exact Hnew|].
          destruct (handleExplain_begin id' (page s)) as [st [p|]]; cbn; exact Hnew.
      - destruct (recommendCalls s !! n) as [q|]; [|auto].
        destruct (searchComponents_resume q r (page s)); cbn; auto.
      - destruct (explainCalls s !! n) as [p|]; [|auto].
        destruct (handleExplain_resume p r (page s)); cbn; auto. }
    destruct (step_effect id e s) as [(_ & _ & _ & Ho & _)|(_ & _ & Hmono & Hrest)].
    + right. lia.
    + destruct Hwas as [Hold|(-> & [Hc|Ha])].
      * destruct (IH id Hold) as [Hc|Ho]; [left; auto|].
        destruct Hrest as [Hc'|[_ Ho']]; [now left|right; lia].
      * left; auto.
      * destruct (step_effect id (ClickRow id) s) as [(_ & _ & _ & Ho & _)|(Hno & _)];
          [right; lia|]. specialize (Hno eq_refl). congruence.
Qed.

End Reachable.

(** ** The export link of the search page *)

Lemma spaceFree_append s t :
  JSText.spaceFree (s +:+ t) = (JSText.spaceFree s && JSText.spaceFree t)%bool.
Proof.
  induction s as [|c s IH]; simpl; [reflexivity|].
  now rewrite IH, andb_assoc.
Qed.

Lemma replaceRuns_spaceFree rep s :
  JSText.spaceFree rep = true ->
  forall inRun, JSText.spaceFree (JSText.replaceRuns inRun rep s) = true.
Proof.
  intros Hrep. induction s as [|c s IH]; intros inRun; simpl; [reflexivity|].
  destruct (JS.isSpace c) eqn:Hc.
  - destruct inRun; [apply IH|]. now rewrite spaceFree_append, Hrep, IH.
  - simpl. now rewrite Hc, IH.
Qed.

(** Replacing the runs of white space is splitting at them and joining the
    pieces again. *)
Lemma replaceRuns_join rep s : forall inRun,
  JSText.replaceRuns inRun rep s = JS.join rep (JS.splitSpaces inRun s).
Proof.
  induction s as [|c s IH]; intros inRun; [reflexivity|].
  cbn [JSText.replaceRuns JS.splitSpaces]. destruct (JS.isSpace c).
  - destruct inRun; [apply IH|]. rewrite IH.
    pose proof (splitSpaces_nonempty s true) as Hne.
    destruct (JS.splitSpaces true s) as [|w ws]; [contradiction|].
    rewrite join_two. reflexivity.
  - rewrite IH. pose proof (splitSpaces_nonempty s false) as Hne.
    destruct (JS.splitSpaces false s) as [|w [|w' ws]]; [contradiction| |]; reflexivity.
Qed.

(** The file a search is exported to is named after the query, its words
    joined by hyphens; the name has no white space in it.  The page shows
    the export button only with a list to export, so the button is never
    disabled there. *)
Theorem search_export_link (st : State) :
  let name := ExportLink.savedAs (Some (ExportLink.searchFilename (query st))) in
  name = "search-" +:+ JS.join "-" (JS.split_ws (query st)) +:+ ".csv" /\
  JSText.spaceFree name = true /\
  (render st = Results -> ExportLink.disabled (components st) = false).
Proof.
  unfold ExportLink.savedAs, ExportLink.searchFilename, JSText.replaceSpaces.
  cbn [default from_option]. unfold id. split; [|split].
  - rewrite replaceRuns_join, append_assoc. reflexivity.
  - rewrite !spaceFree_append, replaceRuns_spaceFree; reflexivity.
  - unfold render, ExportLink.disabled.
    destruct (JS.truthyOptStr (error st)); [discriminate|].
    destruct (isLoading st); [discriminate|].
    destruct (components st); [|reflexivity].
    cbn. destruct (JS.truthyStr (query st)); discriminate.
Qed.

(** ** Addresses and responses *)

Section Requests.

Context {H : Host}.

Import Http.

Lemma prefix_append p rest : String.prefix p (p +:+ rest) = true.
Proof.
  induction p as [|c p IH]; simpl; [now destruct rest|].
  destruct (ascii_dec c c); [exact IH|contradiction].
Qed.

Lemma prefix_split p : forall s, String.prefix p s = true -> exists rest, s = p +:+ rest.
Proof.
  induction p as [|c p IH]; intros s Hp; [exists s; reflexivity|].
  destruct s as [|c' s]; [discriminate|]. simpl in Hp.
  destruct (ascii_dec c c') as [<-|]; [|discriminate].
  destruct (IH s Hp) as [rest ->]. exists rest. reflexivity.
Qed.

(** Every address [buildUrl] makes is the base followed by a path under
    [/api]; a path that is under [/api] already is taken as it is, so the
    prefix is never doubled.  In development the base is empty and the
    address is that path alone; in production the base is never empty. *)
Theorem buildUrl_under_api (FASTAPI_BASE_URL path : string) :
  (exists rest,
     buildUrl FASTAPI_BASE_URL path = FASTAPI_BASE_URL +:+ "/api" +:+ rest /\
     buildUrl FASTAPI_BASE_URL ("/api" +:+ rest) = buildUrl FASTAPI_BASE_URL path) /\
  (forall configured,
     buildUrl (getApiBaseUrl true configured) path = buildUrl "" path /\
     getApiBaseUrl false configured <> "").
Proof.
  assert (forall p, buildUrl FASTAPI_BASE_URL p =
            FASTAPI_BASE_URL +:+ (if JSText.startsWith p "/api" then p else "/api" +:+ p))
    as Hbuild.
  { intros p. unfold buildUrl. destruct (JS.truthyStr FASTAPI_BASE_URL) eqn:Hb; [reflexivity|].
    apply truthyStr_false in Hb. now subst. }
  split.
  - rewrite Hbuild. unfold JSText.startsWith.
    destruct (String.prefix "/api" path) eqn:Hp.
    + destruct (prefix_split _ _ Hp) as [rest ->]. exists rest.
      split; [reflexivity|]. rewrite Hbuild. unfold JSText.startsWith.
      now rewrite prefix_append.
    + exists path. split; [reflexivity|]. rewrite Hbuild. unfold JSText.startsWith.
      now rewrite prefix_append.
  - intros configured. split; [reflexivity|].
    unfold getApiBaseUrl, JS.orStr.
    destruct configured as [s|]; cbn; [|discriminate].
    destruct (JS.truthyStr s) eqn:Hs; cbn; [|discriminate].
    intros ->. discriminate.
Qed.

Lemma handleResponse_rejects (response : Response) (operation : string) :
  ok response = false ->
  exists reason,
    handleResponse response operation =
      Rejected (ErrorObject (operation +:+ " failed: " +:+ reason)).
Proof.
  intros Hok. unfold handleResponse, errorMessage. rewrite Hok. cbn [negb].
  destruct (json response) as [errorData|err]; [|eauto].
  destruct errorData; cbn; eauto;
    match goal with |- context [find ?f ?l] => destruct (find f l) as [[k detail]|] end;
    cbn; [destruct (truthy detail)|]; eauto.
Qed.

Lemma explain_fulfilled (typeError : Thrown) (fetched : Fetched) (result : Json) :
  explain typeError fetched = Fulfilled result ->
  exists response text,
    fetched = Fulfilled response /\ ok response = true /\
    json response = Fulfilled result /\
    field "explanation" result = Some (JStr text).
Proof.
  unfold explain, call, handleResponse.
  destruct fetched as [response|err]; [|discriminate].
  destruct (ok response) eqn:Hok; cbn [negb]; [|discriminate].
  destruct (json response) as [data|err] eqn:Hjson; [|discriminate].
  destruct (field "explanation" data) as [[| | |text| |]|] eqn:Hf; try discriminate.
  intros [= <-]. exists response, text. auto.
Qed.

(** A response that is not [ok] is never returned: the call fails with an
    error whose message names the operation.  When the body is JSON and
    has a truthy [detail], the message ends in that detail; in every other
    case (a body that is not JSON, no [detail], a falsy one) it ends in the
    status code and the status text. *)
Theorem handleResponse_not_ok (response : Response) (operation : string) :
  ok response = false ->
  (forall errorData detail,
     json response = Fulfilled errorData ->
     field "detail" errorData = Some detail -> truthy detail = true ->
     handleResponse response operation =
       Rejected (ErrorObject (operation +:+ " failed: " +:+ toString detail))) /\
  ((forall errorData detail,
      json response = Fulfilled errorData ->
      field "detail" errorData = Some detail -> truthy detail = false) ->
   handleResponse response operation =
     Rejected (ErrorObject
                 (operation +:+ " failed: " +:+
                  numberToString (inject_Z (status response)) +:+ " " +:+
                  statusText response))).
Proof.
  intros Hok. unfold handleResponse, errorMessage. rewrite Hok. cbn [negb]. split.
  - intros errorData detail -> Hdetail Ht. rewrite Hdetail, Ht.
    destruct errorData; try discriminate; reflexivity.
  - intros Hfalsy. destruct (json response) as [errorData|err]; [|reflexivity].
    destruct (field "detail" errorData) as [detail|] eqn:Hdetail;
      [|destruct errorData; reflexivity].
    rewrite (Hfalsy errorData detail eq_refl Hdetail).
    destruct errorData; reflexivity.
Qed.

(** [api.explain] is fulfilled only by an [ok] response whose body is JSON
    and has a string under [explanation]. *)
Theorem explain_needs_explanation_text (typeError : Thrown) (fetched : Fetched)
    (result : Json) :
  explain typeError fetched = Fulfilled result <->
  exists response text,
    fetched = Fulfilled response /\ ok response = true /\
    json response = Fulfilled result /\
    field "explanation" result = Some (JStr text).
Proof.
  split; [apply explain_fulfilled|].
  intros (response & text & -> & Hok & Hjson & Hfield).
  unfold explain, call, handleResponse.
  rewrite Hok. cbn. rewrite Hjson, Hfield. reflexivity.
Qed.

(** [testConnection] succeeds exactly when the health address and then
    the status address answer with an [ok] status and a JSON body.  The
    status address is fetched only after a healthy answer. *)
Theorem testConnection_outcome (FASTAPI_BASE_URL : string) (net : string -> Fetched) :
  let healthy address :=
    exists response body,
      net address = Fulfilled response /\ ok response = true /\
      json response = Fulfilled body in
  let result := testConnection FASTAPI_BASE_URL net in
  (result.1 = Fulfilled tt <->
   healthy (FASTAPI_BASE_URL +:+ "/health") /\
   healthy (FASTAPI_BASE_URL +:+ "/api/status")) /\
  (healthy (FASTAPI_BASE_URL +:+ "/health") ->
   result.2 = [FASTAPI_BASE_URL +:+ "/health"; FASTAPI_BASE_URL +:+ "/api/status"]) /\
  (~ healthy (FASTAPI_BASE_URL +:+ "/health") ->
   result.2 = [FASTAPI_BASE_URL +:+ "/health"]).
Proof.
  intros healthy result.
  assert (healthUrl FASTAPI_BASE_URL = FASTAPI_BASE_URL +:+ "/health") as Hh.
  { unfold healthUrl. destruct (JS.truthyStr FASTAPI_BASE_URL) eqn:Hb; [reflexivity|].
    apply truthyStr_false in Hb. now subst. }
  assert (buildUrl FASTAPI_BASE_URL "/status" = FASTAPI_BASE_URL +:+ "/api/status") as Hs.
  { unfold buildUrl. cbn. destruct (JS.truthyStr FASTAPI_BASE_URL) eqn:Hb; [reflexivity|].
    apply truthyStr_false in Hb. now subst. }
  assert (forall operation address,
            (exists body, call operation (net address) = Fulfilled body) <-> healthy address)
    as Hcall.
  { intros operation address. unfold healthy, call, handleResponse. split.
    - intros (body & Hbody).
      destruct (net address) as [response|err] eqn:Hnet; [|discriminate].
      destruct (ok response) eqn:Hok; cbn [negb] in Hbody; [|discriminate].
      exists response, body. auto.
    - intros (response & body & -> & Hok & Hjson). cbn. rewrite Hok. cbn. eauto. }
  unfold result, testConnection, health, status_. rewrite Hh, Hs.
  pose proof (Hcall "Health check" (FASTAPI_BASE_URL +:+ "/health")) as H1.
  pose proof (Hcall "Status check" (FASTAPI_BASE_URL +:+ "/api/status")) as H2.
  destruct (call "Health check" (net (FASTAPI_BASE_URL +:+ "/health"))) as [h|e1].
  - destruct (call "Status check" (net (FASTAPI_BASE_URL +:+ "/api/status"))) as [st|e2]; cbn.
    + split; [split; [intros _; split; [apply H1|apply H2]; eauto|reflexivity]|].
      split; [reflexivity|]. intros Hno. contradict Hno. apply H1. eauto.
    + split; [split; [discriminate|]|].
      * intros [_ Hst]. apply H2 in Hst as [body Hbody]. discriminate.
      * split; [reflexivity|]. intros Hno. contradict Hno. apply H1. eauto.
  - cbn. split; [split; [discriminate|]|].
    + intros [Hhe _]. apply H1 in Hhe as [body Hbody]. discriminate.
    + split; [|reflexivity]. intros Hhe. apply H1 in Hhe as [body Hbody]. discriminate.
Qed.

(** An error status on the recommendation request reaches the user: the
    search ends with the error panel showing a message that starts with
    "Recommendation failed: ". *)
Theorem http_error_reaches_the_panel (view : Json -> Schema.RecommendResponse)
    (response : Response) (searchQuery : string) (st : State) :
  ok response = false ->
  exists reason st',
    searchComponents_resume searchQuery
      (typed view (recommend (Fulfilled response))) st = Normal st' /\
    error st' = Some ("Recommendation failed: " +:+ reason) /\
    components st' = [] /\ isLoading st' = false /\
    render st' = ErrorPanel.
Proof.
  intros Hok.
  destruct (handleResponse_rejects response "Recommendation" Hok) as (reason & Hr).
  exists reason. unfold recommend, call. rewrite Hr. cbn.
  eexists. split; [reflexivity|]. cbn. repeat split; reflexivity.
Qed.

(** An answer of the explanation service that has no explanation text in
    it is handled like a failure: the row gets the fallback text. *)
Theorem answer_without_explanation_falls_back (view : Json -> Schema.ExplainResponse)
    (typeError : Thrown) (response : Response) (p : Pending) (st : State) :
  (forall body text, json response = Fulfilled body ->
     field "explanation" body <> Some (JStr text)) ->
  handleExplain_resume p (typed view (explain typeError (Fulfilled response))) st =
    Normal (setExplanation (componentId p)
              (fallbackExplanation (component p) (askedQuery p)) st).
Proof.
  intros Hnone.
  destruct (explain typeError (Fulfilled response)) as [result|err] eqn:He;
    [|reflexivity].
  apply explain_fulfilled in He
    as (response' & text & [= <-] & _ & Hjson & Hfield).
  now destruct (Hnone result text Hjson).
Qed.

End Requests.

(** ** The connection debugger *)

Section Debugger.

Import ApiDebugger.

Lemma runAll_results names exec : forall st,
  List.NoDup names ->
  (names <> [] -> loading (runAll names exec st) = None) /\
  (forall name, In name names ->
     testResults (runAll names exec st) !! name = Some (recorded (exec name))) /\
  (forall name, ~ In name names ->
     testResults (runAll names exec st) !! name = testResults st !! name).
Proof.
  induction names as [|n names IH]; intros st Hnd.
  - cbn. split; [congruence|]. split; [intros name []|reflexivity].
  - apply List.NoDup_cons_iff in Hnd as [Hn Hnd]. cbn [runAll].
    destruct (IH (runTest n (exec n) st) Hnd) as (Hl & Hin & Hout).
    split; [|split].
    + intros _. destruct names as [|n' names']; [reflexivity|]. now apply Hl.
    + intros name [<-|Hname].
      * rewrite (Hout n Hn). cbn. apply lookup_insert_eq.
      * now apply Hin.
    + intros name Hname. rewrite Hout by (intros Hin'; apply Hname; now right).
      cbn. apply lookup_insert_ne. intros <-. apply Hname. now left.
Qed.

(** "Run All Tests" leaves a result for each of the four tests, whatever
    became of the others: a test that fails is recorded as failed with the
    message of its error, and the tests after it still run.  Results of
    other names are kept, and nothing is left loading. *)
Theorem runAllTests_records_every_test (exec : string -> Execution) (st : State) :
  let st' := runAllTests exec st in
  loading st' = None /\
  (forall name, In name tests ->
     testResults st' !! name = Some (recorded (exec name)) /\
     card st' name =
       match outcome (exec name) with
       | Fulfilled _ => Success (endTime (exec name) - startTime (exec name))
       | Rejected (ErrorObject message) =>
           if JS.truthyStr message
           then Failed (endTime (exec name) - startTime (exec name)) message
           else FailedSilently (endTime (exec name) - startTime (exec name))
       | Rejected OtherValue =>
           Failed (endTime (exec name) - startTime (exec name)) "Unknown error"
       end) /\
  (forall name, ~ In name tests -> testResults st' !! name = testResults st !! name).
Proof.
  intros st'.
  assert (List.NoDup tests) as Hnd.
  { unfold tests. repeat constructor; cbn; intuition discriminate. }
  destruct (runAll_results tests exec st Hnd) as (Hl & Hin & Hout).
  split; [apply Hl; discriminate|]. split; [|exact Hout].
  intros name Hname. unfold card, st', runAllTests. rewrite (Hin name Hname).
  split; [reflexivity|]. unfold recorded.
  destruct (outcome (exec name)) as [result|[message|]]; reflexivity.
Qed.

End Debugger.

(** ** Rows without a component, and the table across searches *)

(** [handleExplain] for an identifier that no listed component carries
    sends no request: it files a notice under the identifier, and a second
    call finds that notice and does nothing. *)
Theorem handleExplain_unknown_component (componentId : string) (st : State) :
  displayed componentId st = false ->
  JS.truthyOptStr (explanations st !! componentId) = false ->
  let noticed := setExplanation componentId componentNotAvailable st in
  handleExplain_begin componentId st = (noticed, None) /\
  handleExplain_begin componentId noticed = (noticed, None) /\
  (forall other, other <> componentId ->
     explanations noticed !! other = explanations st !! other).
Proof.
  intros Hd Hc noticed. unfold handleExplain_begin. rewrite Hc.
  assert (find (fun c => String.eqb (Schema.id c) componentId) (components st) = None)
    as ->.
  { revert Hd. unfold displayed. induction (components st) as [|c cs IH]; [reflexivity|].
    cbn. destruct (String.eqb (Schema.id c) componentId); [discriminate|exact IH]. }
  split; [reflexivity|]. split.
  - unfold noticed. cbn. rewrite lookup_insert_eq. reflexivity.
  - intros other Hne. unfold noticed. cbn. now rewrite lookup_insert_ne.
Qed.

(** A search for another query takes the table off the page, whether the
    query is sent, turned down or empty: the table that comes back starts
    from its defaults, sorted by total score, descending, with every row
    closed. *)
Theorem new_search_resets_table (newQuery : string) (s : Sys) :
  newQuery <> query (page s) ->
  let s' := step (SubmitSearch newQuery) s in
  tableMounted (page s') = false /\ table s' = ComponentTable.initial /\
  explanations (page s') = explanations (page s).
Proof.
  intros Hnew s'. unfold s', step, handle.
  rewrite (proj2 (String.eqb_neq _ _) Hnew).
  destruct s as [[q cs loading e ex] t calls pending requests].
  unfold queryEffect, searchComponents_begin. cbn [query setQuery].
  destruct (JS.truthyStr newQuery) eqn:Ht;
    [destruct (isValidElectronicsQuery newQuery)|];
    unfold remount, tableMounted, render; cbn; rewrite ?Ht;
    destruct loading; cbn; rewrite ?Ht; repeat split; reflexivity.
Qed.

(** ** The properties at work *)

(** The two regulators as the service answers them carry no [totalScore]:
    the table, which opens sorted by total score, shows them as received. *)
Lemma sortedComponents_missing_field_witness :
  @sortedComponents Sample.host
    (default [] (Schema.components Sample.regulators)) ComponentTable.initial
  = default [] (Schema.components Sample.regulators).
Proof.
  apply (@sortedComponents_missing_field Sample.host sample_laws).
  repeat constructor.
Defined.

(** The LM317 and the LM7805 differ in total score: a click on the header
    of that column turns the list of the two upside down. *)
Lemma header_click_reverses_witness :
  @sortedComponents Sample.host [Sample.lm317; Sample.lm7805]
    (handleSort totalScore ComponentTable.initial)
  = rev (@sortedComponents Sample.host [Sample.lm317; Sample.lm7805]
           ComponentTable.initial).
Proof.
  apply (@header_click_reverses Sample.host sample_laws
           [Sample.lm317; Sample.lm7805] ComponentTable.initial).
  intros [|[|i]] [|[|j]] a b Hne Ha Hb; try congruence; try discriminate;
    injection Ha as <-; injection Hb as <-; vm_compute; discriminate.
Defined.

(** [  LM7805 ] is judged as [lm7805] is. *)
Lemma validation_ignores_case_and_padding_witness :
  isValidElectronicsQuery ("  " +:+ "LM7805" +:+ " ") = isValidElectronicsQuery "lm7805".
Proof.
  apply validation_ignores_case_and_padding; reflexivity.
Defined.

(** The page opened at [/search?q=%20%20%20]. *)
Lemma blank_query_blocked_witness :
  sent (boot "   ") = [] /\ render (page (boot "   ")) = ErrorPanel.
Proof.
  destruct (blank_query_blocked "   ") as (Hs & _ & _ & Hr).
  - discriminate.
  - reflexivity.
  - split; assumption.
Defined.

(** The answer with the two regulators is displayed. *)
Lemma results_shown_iff_relevant_witness :
  exists st',
    (searchComponents (fun _ => Fulfilled Sample.regulators) "5V regulator"
       (page Sample.searching)).1 = Normal st' /\
    render st' = Results.
Proof.
  destruct (results_shown_iff_relevant "5V regulator" Sample.regulators
              (page Sample.searching)) as (st' & Hrun & Hiff & _).
  - vm_compute. reflexivity.
  - exists st'. split; [exact Hrun|]. apply Hiff.
    eexists. split; [left; reflexivity|]. vm_compute. discriminate.
Defined.

(** An answer with an empty list, for the same search. *)
Lemma empty_answer_shows_no_results_witness :
  (searchComponents
     (fun _ => Fulfilled {| Schema.components := Some []; Schema.rr_query := "5V regulator";
                            Schema.total := 0 |})
     "5V regulator" (page Sample.searching)).1 =
    Normal {| query := "5V regulator"; components := []; isLoading := false;
              error := None; explanations := ∅ |}.
Proof.
  refine (proj1 (empty_answer_shows_no_results "5V regulator"
                   {| Schema.components := Some []; Schema.rr_query := "5V regulator";
                      Schema.total := 0 |} (page Sample.searching) _ _ _)).
  - vm_compute. reflexivity.
  - vm_compute. discriminate.
  - reflexivity.
Defined.

(** The page opened on [react]: the retry button sends nothing. *)
Lemma retry_of_blocked_query_witness :
  sent (step ClickRetry (boot "react")) = [] /\
  step ClickRetry (step ClickRetry (boot "react")) = step ClickRetry (boot "react").
Proof.
  destruct (retry_of_blocked_query (boot "react")) as (Hs & _ & _ & _ & Hfix).
  - vm_compute. reflexivity.
  - vm_compute. reflexivity.
  - split; [exact Hs|exact Hfix].
Defined.

Lemma showing_reachable : reachable Sample.showing.
Proof.
  exists "5V regulator", [RecommendSettles 0 (Fulfilled Sample.regulators)].
  unfold Sample.showing, Sample.searching. cbn [run]. reflexivity.
Qed.

(** The one request of the page that shows the regulators. *)
Lemma requests_are_validated_witness :
  (20 = 20)%Z /\ isValidElectronicsQuery "5V regulator" = true.
Proof.
  apply (requests_are_validated Sample.showing "5V regulator" 20).
  - exact showing_reachable.
  - vm_compute. left. reflexivity.
Defined.

(** The page that has just been opened on a query is loading. *)
Lemma loading_has_request_in_flight_witness :
  recommendCalls Sample.searching <> [].
Proof.
  apply loading_has_request_in_flight.
  - exists "5V regulator", []. reflexivity.
  - vm_compute. reflexivity.
Defined.

(** The row of the LM317 just after it was opened. *)
Lemma loading_row_has_request_in_flight_witness :
  (1 <= outstanding "2" (step (ClickRow "2") Sample.showing))%nat.
Proof.
  apply loading_row_has_request_in_flight.
  - exists "5V regulator",
      [RecommendSettles 0 (Fulfilled Sample.regulators); ClickRow "2"].
    unfold Sample.showing, Sample.searching. cbn [run]. reflexivity.
  - vm_compute. reflexivity.
  - vm_compute. reflexivity.
Defined.

(** A 404 with a reason in its body, and a 503 whose body is not JSON. *)
Lemma handleResponse_not_ok_witness :
  @Http.handleResponse Sample.host Replies.notFound "Explanation" =
    Rejected (ErrorObject "Explanation failed: Component 42 not found") /\
  @Http.handleResponse Sample.host Replies.unavailable "Recommendation" =
    Rejected (ErrorObject "Recommendation failed: 503 Service Unavailable").
Proof.
  split.
  - exact (proj1 (@handleResponse_not_ok Sample.host Replies.notFound "Explanation"
                    eq_refl)
             _ _ eq_refl eq_refl eq_refl).
  - refine (proj2 (@handleResponse_not_ok Sample.host Replies.unavailable
                     "Recommendation" eq_refl) _).
    intros errorData detail Hjson. discriminate Hjson.
Defined.

(** A 503 with a body that is not JSON, answering the search for
    regulators. *)
Lemma http_error_reaches_the_panel_witness :
  exists reason st',
    searchComponents_resume "5V regulator"
      (Http.typed (fun _ => Sample.regulators)
         (@Http.recommend Sample.host (Fulfilled Replies.unavailable)))
      (page Sample.searching) = Normal st' /\
    error st' = Some ("Recommendation failed: " +:+ reason) /\
    render st' = ErrorPanel.
Proof.
  destruct (@http_error_reaches_the_panel Sample.host (fun _ => Sample.regulators)
              Replies.unavailable "5V regulator" (page Sample.searching) eq_refl)
    as (reason & st' & Hrun & Herr & _ & _ & Hr).
  exists reason, st'. auto.
Defined.

(** A 200 whose body has a component identifier and nothing else. *)
Lemma answer_without_explanation_falls_back_witness :
  handleExplain_resume Replies.forLm317
    (Http.typed (fun _ => Sample.explained)
       (@Http.explain Sample.host OtherValue (Fulfilled Replies.noText)))
    (page Sample.showing) =
  Normal (setExplanation "2"
            (fallbackExplanation Sample.lm317 "5V regulator") (page Sample.showing)).
Proof.
  apply (@answer_without_explanation_falls_back Sample.host (fun _ => Sample.explained)
           OtherValue Replies.noText Replies.forLm317 (page Sample.showing)).
  intros body text [= <-]. vm_compute. discriminate.
Defined.

(** The export of the LM7805 read back. *)
Lemma exportToCSV_round_trip_witness :
  exists rows,
    Csv.dataRows (@ExportButton.exportToCSV Sample.host [Sample.lm7805]) = Some rows /\
    length rows = 1%nat.
Proof.
  destruct (@exportToCSV_round_trip Sample.host [Sample.lm7805]) as (rows & Hrows & Hlen & _).
  - repeat constructor.
  - exists rows. split; assumption.
Defined.

(** A row identifier that is not among the regulators on display. *)
Lemma handleExplain_unknown_component_witness :
  handleExplain_begin "9" (page Sample.showing)
  = (setExplanation "9" componentNotAvailable (page Sample.showing), None).
Proof.
  refine (proj1 (handleExplain_unknown_component "9" (page Sample.showing) _ _));
    vm_compute; reflexivity.
Defined.

(** The regulators sorted by price, then a search for timers. *)
Lemma new_search_resets_table_witness :
  table (step (SubmitSearch "timer")
           (step (ClickHeader ComponentTable.price) Sample.showing))
  = ComponentTable.initial.
Proof.
  refine (proj1 (proj2 (new_search_resets_table "timer"
                          (step (ClickHeader ComponentTable.price) Sample.showing) _))).
  vm_compute. discriminate.
Defined.
